(** * mdpo.md: Markdown span wrapping and link reference resolution

    A shallow embedding of [src/mdpo/md.py].  Python [str] values are
    modelled as [string] (characters restricted to code points below 256),
    [len] as a [Z], [None] as the [None] of an option, a raised exception as
    the [None] of the error monad used by the wrapper callbacks. *)

From Stdlib Require Import ZArith Lia List Bool Ascii String.
Import ListNotations.
Open Scope string_scope.
Open Scope Z_scope.

(** ** Python string primitives *)

Module PyStr.

Definition len (s : string) : Z := Z.of_nat (String.length s).

Definition ch (c : ascii) : string := String c EmptyString.

(** [s[1:]]-style dropping of the first [n] characters. *)
Fixpoint drop (n : nat) (s : string) : string :=
  match n, s with
  | O, _ => s
  | S _, EmptyString => EmptyString
  | S k, String _ t => drop k t
  end.

Fixpoint rev_onto (s acc : string) : string :=
  match s with
  | EmptyString => acc
  | String c t => rev_onto t (String c acc)
  end.

Definition rev (s : string) : string := rev_onto s EmptyString.

Fixpoint mem (c : ascii) (chars : string) : bool :=
  match chars with
  | EmptyString => false
  | String d t => Ascii.eqb c d || mem c t
  end.

Fixpoint lstrip (chars s : string) : string :=
  match s with
  | EmptyString => EmptyString
  | String c t => if mem c chars then lstrip chars t else s
  end.

(** [s.rstrip(chars)] *)
Definition rstrip (chars s : string) : string := rev (lstrip chars (rev s)).

(** [s[-1]], which raises [IndexError] on the empty string. *)
Fixpoint last (s : string) : option ascii :=
  match s with
  | EmptyString => None
  | String c EmptyString => Some c
  | String _ t => last t
  end.

(** [s[0]], which raises [IndexError] on the empty string. *)
Definition first (s : string) : option ascii :=
  match s with
  | EmptyString => None
  | String c _ => Some c
  end.

(** [s[:-1]] *)
Fixpoint init (s : string) : string :=
  match s with
  | EmptyString => EmptyString
  | String _ EmptyString => EmptyString
  | String c t => String c (init t)
  end.

(** [s[1:-1]] *)
Definition strip_ends (s : string) : string := init (drop 1 s).

(** [n * c] for a one-character string; empty when [n <= 0]. *)
Definition times (n : Z) (c : ascii) : string :=
  string_of_list_ascii (repeat c (Z.to_nat n)).

(** [s.replace(old, new)]: every non-overlapping occurrence, left to right.
    [skip] counts the characters of an occurrence still to be passed over. *)
Fixpoint replace_from (old new s : string) (skip : nat) : string :=
  match s with
  | EmptyString => EmptyString
  | String c t =>
      match skip with
      | S k => replace_from old new t k
      | O => if prefix old s
             then new ++ replace_from old new t (String.length old - 1)
             else String c (replace_from old new t O)
      end
  end.

Fixpoint interleave (new s : string) : string :=
  match s with
  | EmptyString => new
  | String c t => new ++ String c (interleave new t)
  end.

Definition replace (old new s : string) : string :=
  match old with
  | EmptyString => interleave new s
  | _ => replace_from old new s O
  end.

(** [s.replace(old, new, 1)]: the first occurrence only. *)
Fixpoint replace_first (old new s : string) : string :=
  match s with
  | EmptyString => match old with EmptyString => new | _ => EmptyString end
  | String c t =>
      if prefix old s then new ++ drop (String.length old) s
      else String c (replace_first old new t)
  end.

(** [s.split(' ')] *)
Fixpoint split_space (s : string) : list string :=
  match s with
  | EmptyString => [EmptyString]
  | String c t =>
      if Ascii.eqb c " " then EmptyString :: split_space t
      else match split_space t with
           | w :: ws => String c w :: ws
           | [] => [ch c]
           end
  end.

Fixpoint has_space (s : string) : bool :=
  match s with
  | EmptyString => false
  | String c t => Ascii.eqb c " " || has_space t
  end.

(** [' '.join(ws)] *)
Definition join_space (ws : list string) : string := String.concat " " ws.

End PyStr.

(** ** A backtracking matcher for the regular expressions of the module

    Python's [re] is a backtracking engine with greedy quantifiers.  The
    patterns of [md.py] only quantify character classes, so the syntax below
    keeps repetition on classes. *)

Module Re.

Inductive regex : Type :=
| Bol                                   (* ^ (no MULTILINE flag)   *)
| Cls (p : ascii -> bool)               (* one character of a class *)
| Lit (s : string)                      (* a literal string         *)
| Seq (r1 r2 : regex)
| Opt (r : regex)                       (* r?   greedy              *)
| Star (p : ascii -> bool)              (* [..]* greedy             *)
| Plus (p : ascii -> bool)              (* [..]+ greedy             *)
| Grp (n : nat) (r : regex).            (* capturing group n        *)

(** Position in the subject and the text still to read. *)
Definition cursor : Type := nat * string.
Definition groups : Type := list (nat * string).

Fixpoint group (n : nat) (g : groups) : option string :=
  match g with
  | [] => None
  | (m, s) :: g' => if Nat.eqb n m then Some s else group n g'
  end.

Section Matcher.
Context {A : Type}.
Variable subject : string.

Fixpoint star_cls (p : ascii -> bool) (pos : nat) (rest : string)
         (g : groups) (k : cursor -> groups -> option A) : option A :=
  match rest with
  | String a t =>
      if p a then
        match star_cls p (S pos) t g k with
        | Some x => Some x
        | None => k (pos, rest) g
        end
      else k (pos, rest) g
  | EmptyString => k (pos, rest) g
  end.

Fixpoint run (r : regex) (c : cursor) (g : groups)
         (k : cursor -> groups -> option A) : option A :=
  match r with
  | Bol => match fst c with O => k c g | S _ => None end
  | Cls p =>
      match snd c with
      | String a t => if p a then k (S (fst c), t) g else None
      | EmptyString => None
      end
  | Lit s =>
      if prefix s (snd c)
      then k ((fst c + String.length s)%nat, PyStr.drop (String.length s) (snd c)) g
      else None
  | Seq r1 r2 => run r1 c g (fun c' g' => run r2 c' g' k)
  | Opt r1 =>
      match run r1 c g k with
      | Some x => Some x
      | None => k c g
      end
  | Star p => star_cls p (fst c) (snd c) g k
  | Plus p =>
      match snd c with
      | String a t => if p a then star_cls p (S (fst c)) t g k else None
      | EmptyString => None
      end
  | Grp n r1 =>
      run r1 c g (fun c' g' =>
        k c' ((n, substring (fst c) (fst c' - fst c) subject) :: g'))
  end.
End Matcher.

(** A match anchored at the cursor: end position and captured groups. *)
Definition match_at (r : regex) (subject : string) (c : cursor)
  : option (nat * groups) :=
  run subject r c [] (fun c' g => Some (fst c', g)).

(** [re.search(r, s)]: the leftmost match; its groups. *)
Fixpoint search_from (r : regex) (subject : string) (pos : nat) (rest : string)
  : option groups :=
  match match_at r subject (pos, rest) with
  | Some (_, g) => Some g
  | None =>
      match rest with
      | EmptyString => None
      | String _ t => search_from r subject (S pos) t
      end
  end.

Definition search (r : regex) (s : string) : option groups :=
  search_from r s O s.

(** [re.findall(r, s)]: the groups of every non-overlapping match, left to
    right; [skip] counts the characters of the last match still to pass. *)
Fixpoint findall_from (r : regex) (subject : string) (pos : nat)
         (rest : string) (skip : nat) : list groups :=
  match skip with
  | S k =>
      match rest with
      | EmptyString => []
      | String _ t => findall_from r subject (S pos) t k
      end
  | O =>
      match match_at r subject (pos, rest), rest with
      | Some (e, g), String _ t =>
          g :: findall_from r subject (S pos) t (e - pos - 1)
      | Some (_, g), EmptyString => [g]
      | None, String _ t => findall_from r subject (S pos) t O
      | None, EmptyString => []
      end
  end.

Definition findall (r : regex) (s : string) : list groups :=
  findall_from r s O s O.

(** Character classes.  [\s] on a [str] pattern is Unicode white space; below
    code point 256 that is 9-13, 28-32, 133 and 160. *)
Definition is_space (a : ascii) : bool :=
  let n := nat_of_ascii a in
  ((9 <=? n) && (n <=? 13) || (28 <=? n) && (n <=? 32)
   || (n =? 133) || (n =? 160))%nat.

Definition none_of (chars : string) (a : ascii) : bool :=
  negb (PyStr.mem a chars).

Definition one_of (chars : string) (a : ascii) : bool := PyStr.mem a chars.

Definition not_space (a : ascii) : bool := negb (is_space a).

Definition not_space_nor (chars : string) (a : ascii) : bool :=
  negb (is_space a) && negb (PyStr.mem a chars).

End Re.

(** ** Regular expressions and helpers of [md.py] *)

Definition dquote : ascii := ascii_of_nat 34.
Definition squote : ascii := ascii_of_nat 39.
Definition backslash : ascii := ascii_of_nat 92.
Definition newline : ascii := ascii_of_nat 10.
Definition backtick : ascii := ascii_of_nat 96.
Definition nl : string := PyStr.ch newline.
Definition dq : string := PyStr.ch dquote.

(** The characters that may open and close a title: double quote, single
    quote, and a parenthesis. *)
Definition title_open : string := String dquote (String squote "(").
Definition title_close : string := String dquote (String squote ")").

Definition upto3_spaces : Re.regex :=
  Re.Opt (Re.Seq (Re.Cls Re.is_space)
    (Re.Opt (Re.Seq (Re.Cls Re.is_space) (Re.Opt (Re.Cls Re.is_space))))).

(** [LINK_REFERENCE_RE]: anchor, up to three spaces, the bracketed label,
    a colon, spaces, the target between optional angle brackets, spaces, an
    optional title opener and an optional title (group 3). *)
Definition LINK_REFERENCE_RE : Re.regex :=
  Re.Seq Re.Bol
  (Re.Seq upto3_spaces
  (Re.Seq (Re.Lit "[")
  (Re.Seq (Re.Grp 1 (Re.Plus (Re.none_of "]")))
  (Re.Seq (Re.Lit "]:")
  (Re.Seq (Re.Plus Re.is_space)
  (Re.Seq (Re.Opt (Re.Lit "<"))
  (Re.Seq (Re.Grp 2 (Re.Plus (Re.not_space_nor ">")))
  (Re.Seq (Re.Opt (Re.Lit ">"))
  (Re.Seq (Re.Star Re.is_space)
  (Re.Seq (Re.Opt (Re.Cls (Re.one_of title_open)))
          (Re.Opt (Re.Grp 3 (Re.Plus (Re.none_of title_close)))))))))))))).

(** [\[([^\]]+)\]\[([^\]\s]+)\]] *)
Definition LINK_REFERENCED_LINK_RE : Re.regex :=
  Re.Seq (Re.Lit "[")
  (Re.Seq (Re.Grp 1 (Re.Plus (Re.none_of "]")))
  (Re.Seq (Re.Lit "][")
  (Re.Seq (Re.Grp 2 (Re.Plus (Re.not_space_nor "]")))
          (Re.Lit "]")))).

(** The pattern compiled by [escape_links_titles]:
    [(\[[^\]]+\]\([^\s]+\s)([^\)]+)] for the default delimiters.  The class
    after the start delimiter excludes the characters of the (escaped) end
    delimiter.  With an empty end delimiter the format string gives
    [(\[[^]+\([^\s]+\s)([^\)]+)]: the class then runs up to the bracket
    that was meant to close the href class and excludes the closing bracket,
    the plus sign, both opening brackets, the caret and white space. *)
Definition links_titles_regex (link_start_string link_end_string : string)
  : Re.regex :=
  match link_end_string with
  | EmptyString =>
      Re.Seq
        (Re.Grp 1
          (Re.Seq (Re.Lit link_start_string)
          (Re.Seq (Re.Plus (Re.not_space_nor "]+([^"))
                  (Re.Cls Re.is_space))))
        (Re.Grp 2 (Re.Plus (Re.none_of ")")))
  | _ =>
      Re.Seq
        (Re.Grp 1
          (Re.Seq (Re.Lit link_start_string)
          (Re.Seq (Re.Plus (Re.none_of link_end_string))
          (Re.Seq (Re.Lit link_end_string)
          (Re.Seq (Re.Lit "(")
          (Re.Seq (Re.Plus Re.not_space) (Re.Cls Re.is_space)))))))
        (Re.Grp 2 (Re.Plus (Re.none_of ")")))
  end.

Definition group_or_empty (n : nat) (g : Re.groups) : string :=
  match Re.group n g with Some s => s | None => EmptyString end.

(** The body of the [for match in re.findall(regex, text)] loop. *)
Definition escape_one_title (text : string) (m : Re.groups) : string :=
  let m0 := group_or_empty 1 m in
  let m1 := group_or_empty 2 m in
  let original_string := m0 ++ m1 in
  let target_string :=
    m0 ++ dq
       ++ PyStr.replace dq (String backslash dq) (PyStr.strip_ends m1)
       ++ dq in
  PyStr.replace original_string target_string text.

(** [escape_links_titles(text, link_start_string, link_end_string)] (every
    call in [md.py] uses the default delimiters). *)
Definition escape_links_titles_with
  (link_start_string link_end_string text : string) : string :=
  fold_left escape_one_title
    (Re.findall (links_titles_regex link_start_string link_end_string) text)
    text.

Definition escape_links_titles (text : string) : string :=
  escape_links_titles_with "[" "]" text.

(** The matches [escape_links_titles] iterates over. *)
Definition link_title_matches (text : string) : list Re.groups :=
  Re.findall (links_titles_regex "[" "]") text.

(** ** Link reference resolution *)

Module Resolver.

(** [match.groups()] of [LINK_REFERENCE_RE]: label, target and optional
    title. *)
Record definition : Type := Definition_ {
  label : string;
  target : string;
  title : option string
}.

(** One element of [re.findall(LINK_REFERENCED_LINK_RE, ...)]. *)
Record usage : Type := Usage {
  display_text : string;
  usage_label : string
}.

(** An element of [msgid_msgstrs_with_links]. *)
Record queued : Type := Queued {
  orig_msgid : string;
  orig_msgstr : string;
  msgid_linkr_groups : list usage;
  msgstr_linkr_groups : list usage
}.

Definition parse_definition (s : string) : option definition :=
  match Re.search LINK_REFERENCE_RE s with
  | Some g =>
      Some (Definition_ (group_or_empty 1 g) (group_or_empty 2 g)
                        (Re.group 3 g))
  | None => None
  end.

Definition find_usages (s : string) : list usage :=
  map (fun g => Usage (group_or_empty 1 g) (group_or_empty 2 g))
      (Re.findall LINK_REFERENCED_LINK_RE s).

(** What one iteration of the discovery loop appends to
    [link_references_text_targets]; [None] is the [IndexError] of
    [msgid[0]] on an empty [msgid]. *)
Definition discover_definition (msgid msgstr : string)
  : option (list (definition * definition)) :=
  match PyStr.first msgid with
  | None => None
  | Some c =>
      if Ascii.eqb c "["
      then match parse_definition msgid with
           | Some d1 =>
               match parse_definition msgstr with
               | Some d2 => Some [(d1, d2)]
               | None => Some []
               end
           | None => Some []
           end
      else Some []
  end.

(** What the same iteration appends to [msgid_msgstrs_with_links]. *)
Definition discover_usages (msgid msgstr : string) : list queued :=
  match find_usages msgid with
  | [] => []
  | us1 =>
      match find_usages msgstr with
      | [] => []
      | us2 => [Queued msgid msgstr us1 us2]
      end
  end.

Fixpoint discover (translations : list (string * string))
         (defs : list (definition * definition)) (qs : list queued)
  : option (list (definition * definition) * list queued) :=
  match translations with
  | [] => Some (defs, qs)
  | (msgid, msgstr) :: rest =>
      match discover_definition msgid msgstr with
      | None => None
      | Some ds =>
          discover rest (defs ++ ds) (qs ++ discover_usages msgid msgstr)
      end
  end.

(** The two sides of a definition pair: index 0 is msgid, 1 is msgstr. *)
Inductive side : Type := Msgid | Msgstr.

Definition pick (sd : side) (p : definition * definition) : definition :=
  match sd with Msgid => fst p | Msgstr => snd p end.

(** The inner [for ... in link_references_text_targets] loop with its
    [break]: the first pair whose label on side [sd] is the usage's. *)
Fixpoint find_definition (sd : side) (lbl : string)
         (link_references_text_targets : list (definition * definition))
  : option definition :=
  match link_references_text_targets with
  | [] => None
  | p :: rest =>
      if String.eqb (label (pick sd p)) lbl then Some (pick sd p)
      else find_definition sd lbl rest
  end.

Definition replacer (u : usage) : string :=
  "[" ++ display_text u ++ "][" ++ usage_label u ++ "]".

Definition replacement (u : usage) (d : definition) : string :=
  "[" ++ display_text u ++ "](" ++ target d ++ ")".

(** One iteration of the outer [for ..._linkr_group in ..._linkr_groups]
    loop: [new] is [new_msgid] (or [new_msgstr]), [None] until the first
    replacement. *)
Definition rewrite_usage (sd : side)
  (defs : list (definition * definition)) (orig : string)
  (new : option string) (u : usage) : option string :=
  match find_definition sd (usage_label u) defs with
  | Some d =>
      Some (PyStr.replace (replacer u) (replacement u d)
              (match new with None => orig | Some s => s end))
  | None => new
  end.

Definition rewrite_side (sd : side)
  (defs : list (definition * definition)) (orig : string)
  (us : list usage) : option string :=
  fold_left (rewrite_usage sd defs orig) us None.

(** A Python dict keyed by [str] or [None]: insertion ordered, assignment to
    a present key overwrites its value in place. *)
Definition pydict : Type := list (option string * option string).

Definition key_eqb (a b : option string) : bool :=
  match a, b with
  | None, None => true
  | Some x, Some y => String.eqb x y
  | _, _ => false
  end.

Fixpoint dict_set (k v : option string) (d : pydict) : pydict :=
  match d with
  | [] => [(k, v)]
  | (k', v') :: rest =>
      if key_eqb k k' then (k, v) :: rest else (k', v') :: dict_set k v rest
  end.

(** The result entry stored for one queued entry. *)
Definition solve_entry (defs : list (definition * definition)) (q : queued)
  : option string * option string :=
  (rewrite_side Msgid defs (orig_msgid q) (msgid_linkr_groups q),
   rewrite_side Msgstr defs (orig_msgstr q) (msgstr_linkr_groups q)).

Definition store_solution (defs : list (definition * definition))
  (solutions : pydict) (q : queued) : pydict :=
  let '(new_msgid, new_msgstr) := solve_entry defs q in
  dict_set new_msgid new_msgstr solutions.

(** [solve_link_reference_targets(translations)], on the items of the
    input dict in iteration order; [None] when it raises. *)
Definition solve_link_reference_targets (translations : list (string * string))
  : option pydict :=
  match discover translations [] [] with
  | None => None
  | Some (defs, qs) => Some (fold_left (store_solution defs) qs [])
  end.

End Resolver.

(** ** The span wrapper *)

Module Wrapper.

(** [md4c.SpanType]; spans the callbacks do not single out are [OTHER]. *)
Inductive span_type : Type := CODE | A | STRONG | EM | WIKILINK | IMG | OTHER.

(** The [details] dict of a span: each attribute is the list of the
    substrings md4c reports for it ([details['href'][0][1]] is the text of
    the first one). *)
Record details : Type := Details {
  href : list string;
  title : list string;
  src : list string;
  target : list string
}.

Definition no_details : details := Details [] [] [] [].

(** The keyword arguments of [__init__] that override delimiters. *)
Record kwargs : Type := Kwargs {
  kw_bold_start_string : option string;
  kw_bold_end_string : option string;
  kw_italic_start_string : option string;
  kw_italic_end_string : option string;
  kw_code_start_string : option string;
  kw_code_end_string : option string;
  kw_link_start_string : option string;
  kw_link_end_string : option string;
  kw_wikilink_start_string : option string;
  kw_wikilink_end_string : option string;
  kw_italic_start_string_escaped : option string;
  kw_italic_end_string_escaped : option string;
  kw_code_start_string_escaped : option string;
  kw_code_end_string_escaped : option string
}.

Definition no_kwargs : kwargs :=
  Kwargs None None None None None None None None None None None None None None.

(** The slots of [MarkdownSpanWrapper] ([md4c_extensions] only reaches the
    parser and is left out). *)
Record wrapper : Type := Wrapper_ {
  width : Z;
  first_line_width : Z;
  indent : string;
  first_line_indent : string;
  bold_start_string : string;
  bold_end_string : string;
  italic_start_string : string;
  italic_start_string_escaped : string;
  italic_end_string : string;
  italic_end_string_escaped : string;
  code_start_string : string;
  code_start_string_escaped : string;
  code_end_string : string;
  code_end_string_escaped : string;
  link_start_string : string;
  link_end_string : string;
  wikilink_start_string : string;
  wikilink_end_string : string;
  output : string;
  current_line : string;
  current_aspan_href : option string;
  current_aspan_title : option string;
  inside_codespan : bool;
  current_wikilink_target : option string
}.

Definition set_line (l : string) (w : wrapper) : wrapper :=
  Wrapper_ (width w) (first_line_width w) (indent w) (first_line_indent w)
    (bold_start_string w) (bold_end_string w) (italic_start_string w)
    (italic_start_string_escaped w) (italic_end_string w)
    (italic_end_string_escaped w) (code_start_string w)
    (code_start_string_escaped w) (code_end_string w)
    (code_end_string_escaped w) (link_start_string w) (link_end_string w)
    (wikilink_start_string w) (wikilink_end_string w)
    (output w) l (current_aspan_href w) (current_aspan_title w)
    (inside_codespan w) (current_wikilink_target w).

Definition set_output (o : string) (w : wrapper) : wrapper :=
  Wrapper_ (width w) (first_line_width w) (indent w) (first_line_indent w)
    (bold_start_string w) (bold_end_string w) (italic_start_string w)
    (italic_start_string_escaped w) (italic_end_string w)
    (italic_end_string_escaped w) (code_start_string w)
    (code_start_string_escaped w) (code_end_string w)
    (code_end_string_escaped w) (link_start_string w) (link_end_string w)
    (wikilink_start_string w) (wikilink_end_string w)
    o (current_line w) (current_aspan_href w) (current_aspan_title w)
    (inside_codespan w) (current_wikilink_target w).

Definition set_aspan (h t : option string) (w : wrapper) : wrapper :=
  Wrapper_ (width w) (first_line_width w) (indent w) (first_line_indent w)
    (bold_start_string w) (bold_end_string w) (italic_start_string w)
    (italic_start_string_escaped w) (italic_end_string w)
    (italic_end_string_escaped w) (code_start_string w)
    (code_start_string_escaped w) (code_end_string w)
    (code_end_string_escaped w) (link_start_string w) (link_end_string w)
    (wikilink_start_string w) (wikilink_end_string w)
    (output w) (current_line w) h t
    (inside_codespan w) (current_wikilink_target w).

Definition set_codespan (b : bool) (w : wrapper) : wrapper :=
  Wrapper_ (width w) (first_line_width w) (indent w) (first_line_indent w)
    (bold_start_string w) (bold_end_string w) (italic_start_string w)
    (italic_start_string_escaped w) (italic_end_string w)
    (italic_end_string_escaped w) (code_start_string w)
    (code_start_string_escaped w) (code_end_string w)
    (code_end_string_escaped w) (link_start_string w) (link_end_string w)
    (wikilink_start_string w) (wikilink_end_string w)
    (output w) (current_line w) (current_aspan_href w)
    (current_aspan_title w) b (current_wikilink_target w).

Definition set_wikilink (t : option string) (w : wrapper) : wrapper :=
  Wrapper_ (width w) (first_line_width w) (indent w) (first_line_indent w)
    (bold_start_string w) (bold_end_string w) (italic_start_string w)
    (italic_start_string_escaped w) (italic_end_string w)
    (italic_end_string_escaped w) (code_start_string w)
    (code_start_string_escaped w) (code_end_string w)
    (code_end_string_escaped w) (link_start_string w) (link_end_string w)
    (wikilink_start_string w) (wikilink_end_string w)
    (output w) (current_line w) (current_aspan_href w)
    (current_aspan_title w) (inside_codespan w) t.

(** [self._current_line += s] *)
Definition add_line (s : string) (w : wrapper) : wrapper :=
  set_line (current_line w ++ s) w.

(** Truth value of a [str]-or-[None] attribute. *)
Definition truthy (o : option string) : bool :=
  match o with
  | Some (String _ _) => true
  | _ => false
  end.

Definition nonempty (s : string) : bool :=
  match s with EmptyString => false | _ => true end.

Definition get (o : option string) (default : string) : string :=
  match o with Some s => s | None => default end.

(** A small error monad: [None] is a raised exception. *)
Definition bind {X Y : Type} (m : option X) (f : X -> option Y) : option Y :=
  match m with Some x => f x | None => None end.

Notation "x <- m ;; f" := (bind m (fun x => f))
  (at level 61, m at next level, right associativity).

Notation "m >>= f" := (bind m f) (at level 50, left associativity).

Section WithCollaborators.

(** [mdpo.po.po_escaped_string] and [mdpo.text.min_not_max_chars_in_a_row]
    are imported from modules outside [md.py]; [po_escaped_string] is its
    value on a non-empty string, [exceeds_scaled n width] the comparison
    [n > width * .95] of an integer with a double. *)
Variable po_escaped_string : string -> string.
Variable min_not_max_chars_in_a_row : ascii -> string -> Z.
Variable exceeds_scaled : Z -> Z -> bool.

(** The call [po_escaped_string(chars)]: the function reads the first
    character of its argument and raises [IndexError] on an empty string. *)
Definition call_po_escaped_string (chars : string) : option string :=
  match chars with
  | EmptyString => None
  | _ => Some (po_escaped_string chars)
  end.

(** [MarkdownSpanWrapper.__init__]; [kwargs.get(...)[0]] raises on an
    empty override, and the defaults of the escaped strings are computed
    (and may raise) whether or not they are overridden. *)
Definition init (width first_line_width : Z)
  (indent first_line_indent : string) (kw : kwargs) : option wrapper :=
  let italic_start := get (kw_italic_start_string kw) "*" in
  let italic_end := get (kw_italic_end_string kw) "*" in
  cs <- PyStr.first (get (kw_code_start_string kw) "`") ;;
  ce <- PyStr.first (get (kw_code_end_string kw) "`") ;;
  italic_start_default <- call_po_escaped_string italic_start ;;
  italic_end_default <- call_po_escaped_string italic_end ;;
  code_start_default <- call_po_escaped_string (PyStr.ch cs) ;;
  code_end_default <- call_po_escaped_string (PyStr.ch ce) ;;
  Some (Wrapper_ width first_line_width indent first_line_indent
    (get (kw_bold_start_string kw) "**")
    (get (kw_bold_end_string kw) "**")
    italic_start
    (get (kw_italic_start_string_escaped kw) italic_start_default)
    italic_end
    (get (kw_italic_end_string_escaped kw) italic_end_default)
    (PyStr.ch cs)
    (get (kw_code_start_string_escaped kw) code_start_default)
    (PyStr.ch ce)
    (get (kw_code_end_string_escaped kw) code_end_default)
    (get (kw_link_start_string kw) "[")
    (get (kw_link_end_string kw) "]")
    (get (kw_wikilink_start_string kw) "[[")
    (get (kw_wikilink_end_string kw) "]]")
    "" "" None None false None).

Definition get_currently_applied_width (w : wrapper) : Z :=
  if nonempty (output w) then width w else first_line_width w.

Definition get_currently_applied_indent (w : wrapper) : string :=
  if nonempty (output w) then indent w else first_line_indent w.

(** [details[...][0][1]] *)
Definition attr0 (a : list string) : option string := hd_error a.

Definition enter_span (w : wrapper) (span : span_type) (d : details)
  : option wrapper :=
  match span with
  | CODE => Some (add_line (code_start_string w) (set_codespan true w))
  | A =>
      h <- attr0 (href d) ;;
      Some (set_aspan (Some h) (attr0 (title d))
              (add_line (link_start_string w) w))
  | STRONG => Some (add_line (bold_start_string w) w)
  | EM => Some (add_line (italic_start_string w) w)
  | WIKILINK =>
      t <- attr0 (target d) ;;
      Some (set_wikilink (Some t) (add_line (wikilink_start_string w) w))
  | IMG => Some (add_line "![" w)
  | OTHER => Some w
  end.

Definition quoted_title (t : string) : string :=
  " " ++ dq ++ escape_links_titles t ++ dq.

Definition leave_span (w : wrapper) (span : span_type) (d : details)
  : option wrapper :=
  match span with
  | CODE => Some (add_line (code_end_string w) (set_codespan false w))
  | A =>
      c <- PyStr.last (current_line w) ;;
      let w1 :=
        if Ascii.eqb c ">" then w
        else
          let w2 := add_line ("](" ++ get (current_aspan_href w) "None") w in
          let w3 := if truthy (current_aspan_title w)
                    then add_line
                           (quoted_title (get (current_aspan_title w) ""))
                           w2
                    else w2 in
          add_line ")" w3 in
      Some (set_aspan None None w1)
  | STRONG => Some (add_line (bold_end_string w) w)
  | EM => Some (add_line (italic_end_string w) w)
  | WIKILINK => Some (set_wikilink None (add_line (wikilink_end_string w) w))
  | IMG =>
      s <- attr0 (src d) ;;
      let w2 := add_line ("](" ++ s) w in
      let w3 := match title d with
                | [] => w2
                | t :: _ => add_line (quoted_title t) w2
                end in
      Some (add_line ")" w3)
  | OTHER => Some w
  end.

(** [self.output += f'{indent}{self._current_line}\n'] *)
Definition emit_line (w : wrapper) : wrapper :=
  set_output
    (output w ++ get_currently_applied_indent w ++ current_line w ++ nl) w.

(** The replacement of a run equal to a delimiter by its escaped form. *)
Definition escape_delimiter (w : wrapper) (t : string) : string :=
  if String.eqb t (italic_start_string w) then italic_start_string_escaped w
  else if String.eqb t (code_start_string w) then code_start_string_escaped w
  else if String.eqb t (code_end_string w) then code_end_string_escaped w
  else if String.eqb t (italic_end_string w) then italic_end_string_escaped w
  else t.

(** An [int] that [float()] cannot convert: rounded to the nearest double
    it reaches [2 ** 1024], that is, its magnitude is at least
    [(2 ** 54 - 1) * 2 ** 970]. *)
Definition float_overflows (width : Z) : bool :=
  Z.shiftl 18014398509481983 970 <=? Z.abs width.

(** [if self._current_aspan_href: width *= .95]: inside a link the width
    becomes a double, which raises [OverflowError] when the integer does not
    fit.  The integer is kept, [exceeds] compares with its scaled value. *)
Definition scale_width (in_link : bool) (width : Z) : option Z :=
  if in_link && float_overflows width then None else Some width.

(** [n > width], with [width] scaled by [.95] inside a link. *)
Definition exceeds (in_link : bool) (n width : Z) : bool :=
  if in_link then exceeds_scaled n width else n >? width.

Definition ends_with_space (s : string) : bool :=
  match PyStr.last s with
  | Some c => Ascii.eqb c " "
  | None => false
  end.

(** The body of [for i, text_split in enumerate(text_splits)]; the local
    [width] is carried with the wrapper, [i] is zero or not. *)
Definition place_word (in_link : bool) (first_word : bool)
  (acc : wrapper * Z) (text_split : string) : option (wrapper * Z) :=
  let '(w, wd) := acc in
  acc1 <-
    (if exceeds in_link
          (PyStr.len (current_line w) + PyStr.len text_split + 1) wd
     then
       if negb first_word || ends_with_space (current_line w)
       then let w' := set_line "" (emit_line w) in
            wd' <- scale_width in_link (get_currently_applied_width w') ;;
            Some (w', wd')
       else Some (w, wd)
     else
       if negb first_word then Some (add_line " " w, wd) else Some (w, wd)) ;;
  Some (add_line text_split (fst acc1), snd acc1).

Fixpoint place_words (in_link : bool) (first_word : bool)
  (acc : wrapper * Z) (text_splits : list string) : option (wrapper * Z) :=
  match text_splits with
  | [] => Some acc
  | s :: rest =>
      acc1 <- place_word in_link first_word acc s ;;
      place_words in_link false acc1 rest
  end.

(** The last branch of [text]: links wrapping, then the word loop. *)
Definition text_plain (w : wrapper) (t : string) : option wrapper :=
  let t := escape_delimiter w t in
  let text_splits := PyStr.split_space t in
  let wd := get_currently_applied_width w in
  let in_link := truthy (current_aspan_href w) in
  w1 <- (if in_link then
           s0 <- hd_error text_splits ;;
           if PyStr.len (current_line w) + PyStr.len s0 + 1 >? wd
           then
             let l := PyStr.rstrip " " (PyStr.init (current_line w)) in
             let w' := set_line l w in
             Some (set_line "[" (emit_line w'))
           else Some w
         else Some w) ;;
  wd1 <- scale_width in_link wd ;;
  placed <- place_words in_link true (w1, wd1) text_splits ;;
  Some (fst placed).

Definition text_codespan (w : wrapper) (t : string) : option wrapper :=
  let wd := get_currently_applied_width w in
  let w1 :=
    if PyStr.len (current_line w) + PyStr.len t + 1 >? wd
    then
      let l := PyStr.rstrip " " (PyStr.rstrip "`" (current_line w)) in
      set_line "`" (emit_line (set_line l w))
    else w in
  c <- PyStr.first (code_start_string w) ;;
  let n_backticks := min_not_max_chars_in_a_row c t - 1 in
  let w2 := if n_backticks =? 0 then w1
            else add_line (PyStr.times n_backticks backtick) w1 in
  Some (add_line (t ++ PyStr.times n_backticks backtick) w2).

Definition text_wikilink (w : wrapper) (t : string) : wrapper :=
  let tg := get (current_wikilink_target w) "" in
  if String.eqb t tg then add_line t w
  else add_line (tg ++ "|" ++ t) w.

(** [MarkdownSpanWrapper.text] *)
Definition text (w : wrapper) (t : string) : option wrapper :=
  if inside_codespan w then text_codespan w t
  else if truthy (current_wikilink_target w) then Some (text_wikilink w t)
  else
    if truthy (current_aspan_href w)
       && String.eqb (get (current_aspan_href w) "") t
       && negb (truthy (current_aspan_title w))
    then Some (set_line
                 (PyStr.rstrip " [" (current_line w) ++ " <" ++ t ++ ">") w)
    else text_plain w t.

(** The callbacks md4c invokes while [parser.parse] walks a block. *)
Inductive event : Type :=
| EnterBlock | LeaveBlock
| EnterSpan (s : span_type) (d : details)
| LeaveSpan (s : span_type) (d : details)
| Text (t : string).

Definition callback (w : wrapper) (e : event) : option wrapper :=
  match e with
  | EnterBlock | LeaveBlock => Some w
  | EnterSpan s d => enter_span w s d
  | LeaveSpan s d => leave_span w s d
  | Text t => text w t
  end.

Fixpoint parse (w : wrapper) (events : list event) : option wrapper :=
  match events with
  | [] => Some w
  | e :: rest => w' <- callback w e ;; parse w' rest
  end.

(** What [wrap] does after [parser.parse] returns. *)
Definition finish (w : wrapper) : string :=
  let out1 :=
    if nonempty (current_line w)
    then output w ++ get_currently_applied_indent w ++ current_line w
    else output w in
  if first_line_width w =? width w then out1 ++ nl else out1.

(** [MarkdownSpanWrapper.wrap], on the callbacks the parser makes for the
    text. *)
Definition wrap (w : wrapper) (events : list event) : option string :=
  w' <- parse w events ;; Some (finish w').

End WithCollaborators.

End Wrapper.
(** ** Definitions that follow the wording of the specification *)

Module SpecWords.

Import Resolver.

(** Resolution of one usage as section 4.3 words it: only the first literal
    occurrence of the usage is replaced. *)
Definition rewrite_usage_first (sd : side)
  (defs : list (definition * definition)) (orig : string)
  (new : option string) (u : usage) : option string :=
  match find_definition sd (usage_label u) defs with
  | Some d =>
      Some (PyStr.replace_first (replacer u) (replacement u d)
              (match new with None => orig | Some s => s end))
  | None => new
  end.

Definition rewrite_side_first (sd : side)
  (defs : list (definition * definition)) (orig : string)
  (us : list usage) : option string :=
  fold_left (rewrite_usage_first sd defs orig) us None.

(** The title payload of a link-title match as section 4.1 words it: every
    quote inside the payload escaped, the payload wrapped in quotes again. *)
Definition escaped_payload (payload : string) : string :=
  dq ++ PyStr.replace dq (String backslash dq) (PyStr.strip_ends payload)
     ++ dq.

End SpecWords.

(** ** Concrete catalogs and texts used below *)

Module Samples.

(** A catalog with one entry, two usages on each side and no definition. *)
Definition no_definition_catalog : list (string * string) :=
  [("See [text][ref].", "Ver [texto][ref].")].

(** A definition entry indented by one space on both sides. *)
Definition indented_definition_catalog : list (string * string) :=
  [(" [a]: /b", " [a]: /c")].

(** A definition of label [b] and an entry where the literal text of the
    usage [[a][b]] also occurs inside [[x][a][b]]. *)
Definition overlapping_catalog : list (string * string) :=
  [("[b]: /t", "[b]: /u");
   ("[x][a][b] [a][b]", "[y][a][b] [a][b]")].

(** Two titled links, each title holding a quote character; the text of
    the first match is a prefix of the text of the second. *)
Definition two_titles : string :=
  "[a](h " ++ dq ++ "x" ++ dq ++ "y" ++ dq ++ ") "
  ++ "[a](h " ++ dq ++ "x" ++ dq ++ "y" ++ dq ++ " z" ++ dq ++ ")".

(** The events md4c reports for the paragraph
    [[http://x.com](http://x.com)]. *)
Definition autolink_events : list Wrapper.event :=
  let d := Wrapper.Details ["http://x.com"] [] [] [] in
  [Wrapper.EnterBlock; Wrapper.EnterBlock;
   Wrapper.EnterSpan Wrapper.A d;
   Wrapper.Text "http://x.com";
   Wrapper.LeaveSpan Wrapper.A d;
   Wrapper.LeaveBlock; Wrapper.LeaveBlock].

End Samples.

(** * Properties of the resolver *)

Section ResolverFacts.

Import Resolver.

Lemma find_definition_skip (sd : side) (lbl : string)
  (pre post : list (definition * definition)) :
  Forall (fun q => label (pick sd q) <> lbl) pre ->
  find_definition sd lbl (pre ++ post) = find_definition sd lbl post.
Proof.
  induction 1 as [|q pre Hq _ IH]; simpl; [reflexivity|].
  apply String.eqb_neq in Hq. rewrite Hq. exact IH.
Qed.

Lemma rewrite_side_snoc (sd : side) defs orig us u :
  rewrite_side sd defs orig (us ++ [u])
  = rewrite_usage sd defs orig (rewrite_side sd defs orig us) u.
Proof. unfold rewrite_side. rewrite fold_left_app. reflexivity. Qed.

End ResolverFacts.

(** C1. A queued entry none of whose usages matches a definition is stored
    under the key [None] with the value [None], not under its original
    source and target texts: the catalog with the single entry
    [See [text][ref].] / [Ver [texto][ref].] resolves to [{None: None}]. *)
Theorem unmatched_entry_stored_as_none :
  Resolver.discover Samples.no_definition_catalog [] []
  = Some ([], [Resolver.Queued "See [text][ref]." "Ver [texto][ref]."
                 [Resolver.Usage "text" "ref"]
                 [Resolver.Usage "texto" "ref"]])
  /\ Resolver.solve_link_reference_targets Samples.no_definition_catalog
     = Some [(None, None)].
Proof. split; vm_compute; reflexivity. Qed.

(** C4. An entry whose source text starts with a space is not retained as
    a definition pair although both of its sides parse as definitions with
    the definition pattern: the first-character filter of the discovery
    loop rejects it before the pattern is tried. *)
Theorem indented_definition_not_retained :
  Resolver.parse_definition " [a]: /b"
  = Some (Resolver.Definition_ "a" "/b" None)
  /\ Resolver.parse_definition " [a]: /c"
     = Some (Resolver.Definition_ "a" "/c" None)
  /\ Resolver.discover Samples.indented_definition_catalog [] []
     = Some ([], []).
Proof. repeat split; vm_compute; reflexivity. Qed.

(** The inner loop stops at the first pair of the list that carries the
    label of the usage on the side being rewritten; the pairs after it play
    no part. *)
Theorem first_matching_definition_wins
  (sd : Resolver.side) (pre post : list (Resolver.definition * Resolver.definition))
  (p : Resolver.definition * Resolver.definition)
  (orig : string) (new : option string) (u : Resolver.usage)
  (Hpre : Forall (fun q => Resolver.label (Resolver.pick sd q)
                           <> Resolver.usage_label u) pre)
  (Hp : Resolver.label (Resolver.pick sd p) = Resolver.usage_label u) :
  Resolver.find_definition sd (Resolver.usage_label u) (pre ++ p :: post)
  = Some (Resolver.pick sd p)
  /\ Resolver.rewrite_usage sd (pre ++ p :: post) orig new u
     = Some (PyStr.replace (Resolver.replacer u)
               (Resolver.replacement u (Resolver.pick sd p))
               (match new with None => orig | Some s => s end)).
Proof.
  assert (Hf : Resolver.find_definition sd (Resolver.usage_label u)
                 (pre ++ p :: post) = Some (Resolver.pick sd p)).
  { rewrite find_definition_skip by exact Hpre.
    simpl. rewrite Hp, String.eqb_refl. reflexivity. }
  split; [exact Hf|].
  unfold Resolver.rewrite_usage. rewrite Hf. reflexivity.
Qed.

Lemma first_matching_definition_wins_example :
  Resolver.rewrite_usage Resolver.Msgid
    ([(Resolver.Definition_ "z" "/z" None, Resolver.Definition_ "z" "/z" None)]
     ++ (Resolver.Definition_ "r" "/one" None,
         Resolver.Definition_ "r" "/uno" None)
     :: [(Resolver.Definition_ "r" "/two" None,
          Resolver.Definition_ "r" "/dos" None)])
    "See [t][r]." None (Resolver.Usage "t" "r")
  = Some "See [t](/one).".
Proof.
  refine (eq_trans (proj2 (first_matching_definition_wins Resolver.Msgid
            _ _ _ "See [t][r]." None (Resolver.Usage "t" "r") _ _)) _).
  - repeat constructor. simpl. discriminate.
  - reflexivity.
  - vm_compute. reflexivity.
Defined.

(** ** [str.replace] acts on every occurrence *)

Section ReplaceFacts.

Lemma prefix_app (s r : string) : prefix s (s ++ r) = true.
Proof.
  induction s as [|c s IH]; simpl.
  - destruct r; reflexivity.
  - destruct (ascii_dec c c) as [_|Hc]; [exact IH | now elim Hc].
Qed.

Lemma replace_from_skip (old new t rest : string) :
  PyStr.replace_from old new (t ++ rest) (String.length t)
  = PyStr.replace_from old new rest O.
Proof.
  induction t as [|c t IH]; simpl; [|exact IH].
  destruct rest; reflexivity.
Qed.

Lemma replace_at_occurrence (c : ascii) (old' new rest : string) :
  PyStr.replace (String c old') new (String c old' ++ rest)
  = new ++ PyStr.replace (String c old') new rest.
Proof.
  unfold PyStr.replace.
  change (String c old' ++ rest) with (String c (old' ++ rest)).
  cbn [PyStr.replace_from].
  change (String c (old' ++ rest)) with (String c old' ++ rest).
  rewrite prefix_app.
  replace (String.length (String c old') - 1)%nat with (String.length old')
    by (simpl; lia).
  rewrite replace_from_skip. reflexivity.
Qed.

Lemma replace_off_occurrence (c d : ascii) (old' new rest : string) :
  prefix (String c old') (String d rest) = false ->
  PyStr.replace (String c old') new (String d rest)
  = String d (PyStr.replace (String c old') new rest).
Proof.
  intros H. unfold PyStr.replace. cbn [PyStr.replace_from].
  rewrite H. reflexivity.
Qed.

End ReplaceFacts.

(** C2 (as amended). The usages of one side are processed in the order
    found, each on the string left by the previous ones ([orig] before the
    first replacement); a usage whose label has a definition replaces every
    literal occurrence of [[displayText][label]] in that string, not only the
    first: the replacement is made at an occurrence and goes on in the text
    after it, and a position that starts no occurrence is copied. *)
Theorem usages_rewritten_in_order
  (sd : Resolver.side) (defs : list (Resolver.definition * Resolver.definition))
  (orig : string) (us : list Resolver.usage) (u : Resolver.usage)
  (d : Resolver.definition)
  (Hd : Resolver.find_definition sd (Resolver.usage_label u) defs = Some d) :
  let old := Resolver.replacer u in
  let new := Resolver.replacement u d in
  Resolver.rewrite_side sd defs orig (us ++ [u])
  = Some (PyStr.replace old new
            (match Resolver.rewrite_side sd defs orig us with
             | Some s => s
             | None => orig
             end))
  /\ (forall rest : string,
        PyStr.replace old new (old ++ rest)
        = new ++ PyStr.replace old new rest)
  /\ (forall (c : ascii) (rest : string),
        prefix old (String c rest) = false ->
        PyStr.replace old new (String c rest)
        = String c (PyStr.replace old new rest)).
Proof.
  cbv zeta. split; [|split].
  - rewrite rewrite_side_snoc. unfold Resolver.rewrite_usage.
    rewrite Hd. reflexivity.
  - intros rest. unfold Resolver.replacer. apply replace_at_occurrence.
  - intros c rest H. unfold Resolver.replacer in *.
    apply replace_off_occurrence. exact H.
Qed.

Lemma usages_rewritten_in_order_example :
  Resolver.rewrite_side Resolver.Msgid
    [(Resolver.Definition_ "r" "/p" None, Resolver.Definition_ "r" "/q" None)]
    "[a][r] and [a][r]" ([] ++ [Resolver.Usage "a" "r"])
  = Some "[a](/p) and [a](/p)".
Proof.
  refine (eq_trans (proj1 (usages_rewritten_in_order Resolver.Msgid
            [(Resolver.Definition_ "r" "/p" None,
              Resolver.Definition_ "r" "/q" None)]
            "[a][r] and [a][r]" [] (Resolver.Usage "a" "r")
            (Resolver.Definition_ "r" "/p" None) _)) _).
  - reflexivity.
  - vm_compute. reflexivity.
Defined.

(** C2 (as stated) fails: in the entry [[x][a][b] [a][b]] the literal text
    of the usage [[a][b]] first occurs inside [[x][a][b]]; the code rewrites
    both occurrences, a first-occurrence-only replacement rewrites one. *)
Lemma first_occurrence_only_refuted :
  exists defs q,
    Resolver.discover Samples.overlapping_catalog [] [] = Some (defs, [q])
    /\ Resolver.rewrite_side Resolver.Msgid defs (Resolver.orig_msgid q)
         (Resolver.msgid_linkr_groups q)
       = Some "[x][a](/t) [a](/t)"
    /\ SpecWords.rewrite_side_first Resolver.Msgid defs
         (Resolver.orig_msgid q) (Resolver.msgid_linkr_groups q)
       = Some "[x][a](/t) [a][b]"
    /\ Resolver.rewrite_side Resolver.Msgid defs (Resolver.orig_msgid q)
         (Resolver.msgid_linkr_groups q)
       <> SpecWords.rewrite_side_first Resolver.Msgid defs
            (Resolver.orig_msgid q) (Resolver.msgid_linkr_groups q).
Proof.
  eexists. eexists. split; [vm_compute; reflexivity|].
  split; [vm_compute; reflexivity|].
  split; [vm_compute; reflexivity|].
  vm_compute. discriminate.
Qed.

(** * Properties of the escaping helper *)

(** C8. On a text with two titled links where the text of the first match
    is the beginning of the text of the second, the loop finds both matches
    but the replacement made for the first one changes the text the second
    one looks for: the second title keeps an unescaped quote, and the result
    differs from the text with both payloads escaped. *)
Theorem second_title_left_unescaped :
  map (group_or_empty 2) (link_title_matches Samples.two_titles)
  = [dq ++ "x" ++ dq ++ "y" ++ dq;
     dq ++ "x" ++ dq ++ "y" ++ dq ++ " z" ++ dq]
  /\ escape_links_titles Samples.two_titles
     = "[a](h " ++ dq ++ "x" ++ String backslash dq ++ "y" ++ dq ++ ") "
       ++ "[a](h " ++ dq ++ "x" ++ String backslash dq ++ "y" ++ dq
       ++ " z" ++ dq ++ ")"
  /\ escape_links_titles Samples.two_titles
     <> "[a](h " ++ SpecWords.escaped_payload (dq ++ "x" ++ dq ++ "y" ++ dq)
        ++ ") [a](h "
        ++ SpecWords.escaped_payload
             (dq ++ "x" ++ dq ++ "y" ++ dq ++ " z" ++ dq)
        ++ ")".
Proof.
  split; [vm_compute; reflexivity|].
  split; [vm_compute; reflexivity|].
  vm_compute. discriminate.
Qed.

(** A text without link-title match is returned unchanged. *)
Lemma escape_links_titles_no_match (text : string) :
  link_title_matches text = [] -> escape_links_titles text = text.
Proof.
  unfold escape_links_titles, escape_links_titles_with, link_title_matches.
  intros H. rewrite H. reflexivity.
Qed.

(** * Properties of the span wrapper *)

(** C3. With the default configuration the paragraph
    [[http://x.com](http://x.com)] is collapsed to the autolink form, but
    the output line starts with a space before the opening angle bracket:
    the text callback always writes a space before the autolink, also when
    the buffer holds nothing but the opening bracket of the link. *)
Theorem autolink_has_leading_space
  (po_escaped_string : string -> string)
  (min_not_max_chars_in_a_row : ascii -> string -> Z)
  (exceeds_scaled : Z -> Z -> bool) :
  Wrapper.bind (Wrapper.init po_escaped_string 80 80 "" "" Wrapper.no_kwargs)
    (fun w => Wrapper.wrap min_not_max_chars_in_a_row exceeds_scaled w
                Samples.autolink_events)
  = Some (" <http://x.com>" ++ nl).
Proof. reflexivity. Qed.

(** ** Concatenation of strings *)

Lemma str_app_assoc (a b c : string) : (a ++ b) ++ c = a ++ (b ++ c).
Proof. induction a as [|x a IH]; simpl; [reflexivity | now rewrite IH]. Qed.

Lemma str_app_nil_r (a : string) : a ++ "" = a.
Proof. induction a as [|x a IH]; simpl; [reflexivity | now rewrite IH]. Qed.

(** ** The configuration is not changed by the callbacks *)

Section ConfigPreserved.

Import Wrapper.

Variable min_not_max_chars_in_a_row : ascii -> string -> Z.
Variable exceeds_scaled : Z -> Z -> bool.

(** The wrapper with its mutable slots reset: what [__init__] fixed. *)
Definition config_of (w : wrapper) : wrapper :=
  set_wikilink None
    (set_codespan false (set_aspan None None (set_line "" (set_output "" w)))).

Lemma place_word_config in_link fw w wd s w1 wd1 :
  place_word exceeds_scaled in_link fw (w, wd) s = Some (w1, wd1) ->
  config_of w1 = config_of w.
Proof.
  unfold place_word.
  destruct (exceeds _ _ _ _);
    [destruct (negb fw || ends_with_space (current_line w));
       [destruct (scale_width in_link _); [|discriminate]|]
    |destruct (negb fw)];
    cbn [bind fst snd]; intros H; injection H as <- <-; reflexivity.
Qed.

Lemma place_words_config in_link ws :
  forall fw w wd w1 wd1,
    place_words exceeds_scaled in_link fw (w, wd) ws = Some (w1, wd1) ->
    config_of w1 = config_of w.
Proof.
  induction ws as [|s ws IH]; intros fw w wd w1 wd1; cbn [place_words].
  - intros H; injection H as <- <-. reflexivity.
  - destruct (place_word exceeds_scaled in_link fw (w, wd) s)
      as [[w2 wd2]|] eqn:E; cbn [bind]; [|discriminate].
    intros H. rewrite (IH _ _ _ _ _ H).
    eapply place_word_config; exact E.
Qed.

Lemma text_plain_config w t w' :
  text_plain exceeds_scaled w t = Some w' -> config_of w' = config_of w.
Proof.
  unfold text_plain.
  set (in_link := truthy (current_aspan_href w)).
  set (ws := PyStr.split_space (escape_delimiter w t)).
  set (wd := get_currently_applied_width w).
  intros H.
  assert (Hpre : forall w1,
             (scale_width in_link wd >>= fun wd1 =>
              place_words exceeds_scaled in_link true (w1, wd1) ws >>=
              fun placed => Some (fst placed)) = Some w' ->
             config_of w' = config_of w1).
  { intros w1. destruct (scale_width in_link wd) as [wd1|];
      cbn [bind]; [|discriminate].
    destruct (place_words exceeds_scaled in_link true (w1, wd1) ws)
      as [[w2 wd2]|] eqn:E; cbn [bind fst]; [|discriminate].
    intros H1; injection H1 as <-. eapply place_words_config; exact E. }
  destruct in_link.
  - destruct (hd_error ws); cbn [bind] in H; [|discriminate].
    destruct (_ >? _); cbn [bind] in H; rewrite (Hpre _ H); reflexivity.
  - cbn [bind] in H. exact (Hpre _ H).
Qed.

Lemma text_config w t w' :
  text min_not_max_chars_in_a_row exceeds_scaled w t = Some w' ->
  config_of w' = config_of w.
Proof.
  unfold text.
  destruct (inside_codespan w).
  - unfold text_codespan.
    destruct (PyStr.first (code_start_string w)); simpl; [|discriminate].
    intros H; injection H as <-.
    destruct (_ >? _); destruct (_ =? 0); reflexivity.
  - destruct (truthy (current_wikilink_target w)).
    + unfold text_wikilink. intros H; injection H as <-.
      destruct (String.eqb _ _); reflexivity.
    + destruct (_ && _ && _).
      * intros H; injection H as <-. reflexivity.
      * apply text_plain_config.
Qed.

Lemma callback_config w e w' :
  callback min_not_max_chars_in_a_row exceeds_scaled w e = Some w' ->
  config_of w' = config_of w.
Proof.
  destruct e as [| |s d|s d|t]; simpl.
  - intros H; injection H as <-; reflexivity.
  - intros H; injection H as <-; reflexivity.
  - destruct s; simpl; try (intros H; injection H as <-; reflexivity).
    + destruct (attr0 (href d)); simpl; [|discriminate].
      intros H; injection H as <-; reflexivity.
    + destruct (attr0 (target d)); simpl; [|discriminate].
      intros H; injection H as <-; reflexivity.
  - destruct s; simpl; try (intros H; injection H as <-; reflexivity).
    + destruct (PyStr.last (current_line w)); simpl; [|discriminate].
      intros H; injection H as <-.
      destruct (Ascii.eqb _ _); [reflexivity|].
      destruct (truthy (current_aspan_title w)); reflexivity.
    + destruct (attr0 (src d)); simpl; [|discriminate].
      intros H; injection H as <-. destruct (title d); reflexivity.
  - apply text_config.
Qed.

Lemma parse_config events :
  forall w w',
    parse min_not_max_chars_in_a_row exceeds_scaled w events = Some w' ->
    config_of w' = config_of w.
Proof.
  induction events as [|e events IH]; intros w w'; simpl.
  - intros H; injection H as <-; reflexivity.
  - destruct (callback _ _ w e) as [w1|] eqn:E; simpl; [|discriminate].
    intros H. rewrite (IH _ _ H). eapply callback_config; eassumption.
Qed.

Lemma code_start_of_config w :
  code_start_string w = code_start_string (config_of w).
Proof. reflexivity. Qed.

Lemma code_end_of_config w :
  code_end_string w = code_end_string (config_of w).
Proof. reflexivity. Qed.

End ConfigPreserved.

Section CodeDelimiter.

Import Wrapper.

Variable po_escaped_string : string -> string.
Variable min_not_max_chars_in_a_row : ascii -> string -> Z.
Variable exceeds_scaled : Z -> Z -> bool.

Lemma init_code_strings wd flw ind find kw w0 c rest c' rest' :
  kw_code_start_string kw = Some (String c rest) ->
  kw_code_end_string kw = Some (String c' rest') ->
  init po_escaped_string wd flw ind find kw = Some w0 ->
  code_start_string w0 = PyStr.ch c /\ code_end_string w0 = PyStr.ch c'.
Proof.
  intros Hs He. unfold init. rewrite Hs, He. cbn [get PyStr.first bind].
  destruct (call_po_escaped_string _ (get (kw_italic_start_string kw) "*"));
    cbn [bind]; [|discriminate].
  destruct (call_po_escaped_string _ (get (kw_italic_end_string kw) "*"));
    cbn [bind]; [|discriminate].
  cbn [call_po_escaped_string PyStr.ch bind].
  intros H; injection H as <-. split; reflexivity.
Qed.

(** C9. When [code_start_string] and [code_end_string] are overridden by
    strings of at least one character, then in every state the callbacks can
    reach from the wrapper built by [__init__], entering a code span appends
    exactly the first character of the start override to the buffer, leaving
    it appends exactly the first character of the end override, and the text
    callback inside a code span fences the text on both sides with
    [min_not_max_chars_in_a_row - 1] backticks, the count being taken over
    runs of the first character of the start override: the buffer (or, when
    the text does not fit, the single backtick that restarts it) is followed
    by the fence, the text and the fence again. *)
Theorem code_delimiter_is_first_character
  (wd flw : Z) (ind find : string) (kw : kwargs)
  (c c' : ascii) (rest rest' : string)
  (events : list event) (w0 w : wrapper)
  (Hs : kw_code_start_string kw = Some (String c rest))
  (He : kw_code_end_string kw = Some (String c' rest'))
  (Hinit : init po_escaped_string wd flw ind find kw = Some w0)
  (Hreach : parse min_not_max_chars_in_a_row exceeds_scaled w0 events
            = Some w) :
  (forall d, exists w',
      enter_span w CODE d = Some w'
      /\ current_line w' = current_line w ++ String c EmptyString)
  /\ (forall d, exists w',
      leave_span w CODE d = Some w'
      /\ current_line w' = current_line w ++ String c' EmptyString)
  /\ (forall t, inside_codespan w = true ->
      let n := min_not_max_chars_in_a_row c t - 1 in
      exists w',
        text min_not_max_chars_in_a_row exceeds_scaled w t = Some w'
        /\ current_line w'
           = (if PyStr.len (current_line w) + PyStr.len t + 1
                 >? get_currently_applied_width w
              then "`" else current_line w)
             ++ PyStr.times n backtick ++ t ++ PyStr.times n backtick).
Proof.
  destruct (init_code_strings _ _ _ _ _ _ _ _ _ _ Hs He Hinit) as [Hcs Hce].
  pose proof (parse_config _ _ _ _ _ Hreach) as Hcfg.
  assert (Hws : code_start_string w = PyStr.ch c)
    by (rewrite code_start_of_config, Hcfg, <- code_start_of_config; exact Hcs).
  assert (Hwe : code_end_string w = PyStr.ch c')
    by (rewrite code_end_of_config, Hcfg, <- code_end_of_config; exact Hce).
  split; [|split].
  - intros d. eexists. split; [reflexivity|]. simpl. rewrite Hws. reflexivity.
  - intros d. eexists. split; [reflexivity|]. simpl. rewrite Hwe. reflexivity.
  - intros t Hin. cbv zeta. unfold text. rewrite Hin. unfold text_codespan.
    rewrite Hws. cbn [PyStr.first PyStr.ch bind].
    eexists. split; [reflexivity|].
    destruct (_ >? _); destruct (_ =? 0) eqn:En;
      try (apply Z.eqb_eq in En; rewrite En);
      unfold add_line; cbn [current_line set_line emit_line set_output];
      repeat first [rewrite !str_app_assoc | progress simpl]; reflexivity.
Qed.

End CodeDelimiter.

(** A wrapper whose code delimiters are overridden by longer strings. *)
Definition tilde_kwargs : Wrapper.kwargs :=
  Wrapper.Kwargs None None None None (Some "~~~") (Some "+-")
    None None None None None None None None.

Definition blank_wrapper : Wrapper.wrapper :=
  Wrapper.Wrapper_ 80 80 "" "" "" "" "" "" "" "" "" "" "" "" "" "" "" ""
    "" "" None None false None.

Definition tilde_wrapper : Wrapper.wrapper :=
  Eval vm_compute in
    match Wrapper.init (fun s => s) 80 80 "" "" tilde_kwargs with
    | Some w => w
    | None => blank_wrapper
    end.

(** A run counter that finds runs of two tildes and no other run. *)
Definition tilde_runs (c : ascii) (t : string) : Z :=
  if Ascii.eqb c "~" then 3 else 1.

(** [tilde_wrapper] after a code span has been entered. *)
Definition tilde_in_code : Wrapper.wrapper :=
  Eval vm_compute in
    match Wrapper.parse tilde_runs (fun _ _ => false) tilde_wrapper
            [Wrapper.EnterSpan Wrapper.CODE Wrapper.no_details] with
    | Some w => w
    | None => blank_wrapper
    end.

Lemma code_delimiter_is_first_character_example :
  (exists w',
      Wrapper.enter_span tilde_in_code Wrapper.CODE Wrapper.no_details
      = Some w'
      /\ Wrapper.current_line w' = "~~")
  /\ (exists w',
      Wrapper.leave_span tilde_in_code Wrapper.CODE Wrapper.no_details
      = Some w'
      /\ Wrapper.current_line w' = "~+")
  /\ (exists w',
      Wrapper.text tilde_runs (fun _ _ => false) tilde_in_code "a~~b"
      = Some w'
      /\ Wrapper.current_line w' = "~``a~~b``").
Proof.
  pose proof (code_delimiter_is_first_character (fun s => s)
                tilde_runs (fun _ _ => false) 80 80 "" "" tilde_kwargs
                "~" "+" "~~" "-"
                [Wrapper.EnterSpan Wrapper.CODE Wrapper.no_details]
                tilde_wrapper tilde_in_code
                eq_refl eq_refl eq_refl eq_refl) as (H1 & H2 & H3).
  split; [exact (H1 Wrapper.no_details)|].
  split; [exact (H2 Wrapper.no_details)|].
  exact (H3 "a~~b" eq_refl).
Defined.

(** ** Strings, words and lines *)

Section StringFacts.

Lemma len_app (a b : string) : PyStr.len (a ++ b) = PyStr.len a + PyStr.len b.
Proof.
  unfold PyStr.len. induction a as [|x a IH]; simpl String.length.
  - simpl. lia.
  - rewrite !Nat2Z.inj_succ. lia.
Qed.


Lemma nonempty_app_l (a b : string) :
  Wrapper.nonempty a = true -> Wrapper.nonempty (a ++ b) = true.
Proof. destruct a; simpl; [discriminate | reflexivity]. Qed.

Lemma nonempty_app_r (a b : string) :
  Wrapper.nonempty b = true -> Wrapper.nonempty (a ++ b) = true.
Proof. destruct a; simpl; [trivial | reflexivity]. Qed.

Lemma split_space_not_nil (s : string) : PyStr.split_space s <> [].
Proof.
  induction s as [|c s IH]; simpl; [discriminate|].
  destruct (Ascii.eqb c " "); [discriminate|].
  destruct (PyStr.split_space s); [contradiction | discriminate].
Qed.

Lemma split_space_app (x r : string) :
  PyStr.has_space x = false ->
  PyStr.split_space (x ++ r)
  = match PyStr.split_space r with
    | w :: ws => (x ++ w) :: ws
    | [] => [x]
    end.
Proof.
  induction x as [|c x IH]; simpl; intros H.
  - pose proof (split_space_not_nil r) as Hn.
    destruct (PyStr.split_space r); [contradiction | reflexivity].
  - apply orb_false_iff in H as [Hc Hx]. rewrite Hc, (IH Hx).
    pose proof (split_space_not_nil r) as Hn.
    destruct (PyStr.split_space r); [contradiction | reflexivity].
Qed.

Lemma join_space_cons2 (x y : string) (ws : list string) :
  PyStr.join_space (x :: y :: ws) = x ++ " " ++ PyStr.join_space (y :: ws).
Proof. reflexivity. Qed.

(** Splitting on spaces undoes joining space-free words with spaces. *)
Lemma split_join_space (ws : list string) :
  ws <> [] ->
  Forall (fun x => PyStr.has_space x = false) ws ->
  PyStr.split_space (PyStr.join_space ws) = ws.
Proof.
  intros Hne Hall. induction Hall as [|x ws Hx Hws IH]; [contradiction|].
  destruct ws as [|y ws].
  - change (PyStr.join_space [x]) with x.
    transitivity (PyStr.split_space (x ++ ""));
      [now rewrite str_app_nil_r|].
    rewrite (split_space_app x "" Hx). simpl. now rewrite str_app_nil_r.
  - rewrite join_space_cons2, (split_space_app _ _ Hx).
    change (PyStr.split_space (" " ++ PyStr.join_space (y :: ws)))
      with ("" :: PyStr.split_space (PyStr.join_space (y :: ws))).
    rewrite IH by discriminate. now rewrite str_app_nil_r.
Qed.

Lemma join_space_snoc (g : list string) (r : string) :
  g <> [] ->
  PyStr.join_space (g ++ [r])%list = PyStr.join_space g ++ " " ++ r.
Proof.
  induction g as [|x g IH]; [contradiction|]. intros _.
  destruct g as [|y g].
  - reflexivity.
  - cbn [app] in *. rewrite join_space_cons2.
    rewrite IH by discriminate.
    rewrite join_space_cons2, !str_app_assoc. reflexivity.
Qed.


Lemma join_space_nonempty (x : string) (g : list string) :
  x <> "" -> Wrapper.nonempty (PyStr.join_space (x :: g)) = true.
Proof.
  intros Hx. destruct g; simpl.
  - destruct x; [contradiction | reflexivity].
  - destruct x; [contradiction | reflexivity].
Qed.

End StringFacts.

(** ** The layout of a wrapped plain-text run *)

Module Layout.

(** Continuation lines: each starts on a new line with the indent. *)
Fixpoint render_rest (ind : string) (gs : list (list string)) : string :=
  match gs with
  | [] => ""
  | g :: gs' => nl ++ ind ++ PyStr.join_space g ++ render_rest ind gs'
  end.

(** The lines holding the word groups [gs]: the words of a line joined by
    single spaces, the first line after [first_ind], the others after
    [ind], consecutive lines separated by a newline. *)
Definition render (first_ind ind : string) (gs : list (list string))
  : string :=
  match gs with
  | [] => ""
  | g :: gs' => first_ind ++ PyStr.join_space g ++ render_rest ind gs'
  end.

(** What successive [emit_line] calls add to [out] for the groups [gs]. *)
Fixpoint emitted (first_ind ind out : string) (gs : list (list string))
  : string :=
  match gs with
  | [] => out
  | g :: gs' =>
      emitted first_ind ind
        (out ++ (if Wrapper.nonempty out then ind else first_ind)
             ++ PyStr.join_space g ++ nl) gs'
  end.

(** A line holds a single word or fits in [m] characters. *)
Definition fits (m : Z) (g : list string) : Prop :=
  List.length g = 1%nat \/ PyStr.len (PyStr.join_space g) <= m.

End Layout.

Section PlainRun.

Import Wrapper Layout.

Variable min_not_max_chars_in_a_row : ascii -> string -> Z.
Variable exceeds_scaled : Z -> Z -> bool.

(** Invariant of the word loop after the first word: the buffer holds a
    group of words joined by spaces; a word either closes the group (the
    buffer is emitted as a line) or joins it when the line still fits. *)
Lemma place_words_layout (fi ind : string) (m : Z) (rest : list string) :
  forall (w : wrapper) (wd : Z) (gcur : list string),
    first_line_indent w = fi -> indent w = ind ->
    width w <= m -> first_line_width w <= m -> wd <= m ->
    current_line w = PyStr.join_space gcur ->
    gcur <> [] -> fits m gcur ->
    exists (gs : list (list string)) (glast : list string)
           (w' : wrapper) (wd' : Z),
      place_words exceeds_scaled false false (w, wd) rest = Some (w', wd')
      /\ (gcur ++ rest)%list = List.concat (gs ++ [glast])
      /\ glast <> []
      /\ Forall (fun g => g <> []) gs
      /\ Forall (fits m) (gs ++ [glast])
      /\ current_line w' = PyStr.join_space glast
      /\ output w' = emitted fi ind (output w) gs.
Proof.
  induction rest as [|r rest IH]; intros w wd gcur Hfi Hind Hw Hflw Hwd Hcur Hne Hfit.
  - exists [], gcur, w, wd. cbn [place_words fst app List.concat emitted].
    rewrite !app_nil_r. repeat split; auto.
  - cbn [place_words]. unfold place_word, exceeds.
    destruct (PyStr.len (current_line w) + PyStr.len r + 1 >? wd) eqn:E.
    + cbn [negb orb scale_width andb bind fst snd].
      set (w1 := add_line r (set_line "" (emit_line w))).
      set (wd1 := get_currently_applied_width (set_line "" (emit_line w))).
      assert (Hwd1 : wd1 <= m).
      { unfold wd1, get_currently_applied_width.
        destruct (nonempty _); simpl; assumption. }
      destruct (IH w1 wd1 [r])
        as (gs & glast & w' & wd' & Hp & Hc & Hgl & Hgs & Hfits & Hl & Ho);
        try assumption; try reflexivity; try discriminate.
      { left; reflexivity. }
      exists (gcur :: gs), glast, w', wd'. repeat split; try assumption.
      * cbn [app List.concat]. rewrite <- Hc. reflexivity.
      * constructor; assumption.
      * cbn [app]. constructor; assumption.
      * rewrite Ho. cbn [emitted]. f_equal. unfold w1. simpl.
        unfold get_currently_applied_indent. rewrite Hfi, Hind, Hcur.
        reflexivity.
    + cbn [negb bind fst snd].
      set (w1 := add_line r (add_line " " w)).
      assert (Hcur1 : current_line w1 = PyStr.join_space (gcur ++ [r])).
      { unfold w1. simpl. rewrite Hcur, join_space_snoc by assumption.
        apply str_app_assoc. }
      assert (Hfit1 : fits m (gcur ++ [r])).
      { right. rewrite <- Hcur1. unfold w1. simpl.
        rewrite !len_app. change (PyStr.len " ") with 1.
        rewrite Z.gtb_ltb in E. apply Z.ltb_ge in E. lia. }
      destruct (IH w1 wd (gcur ++ [r])%list)
        as (gs & glast & w' & wd' & Hp & Hc & Hgl & Hgs & Hfits & Hl & Ho);
        try assumption.
      { destruct gcur; discriminate. }
      exists gs, glast, w', wd'. repeat split; try assumption.
      rewrite <- Hc, <- app_assoc. reflexivity.
Qed.

Lemma emitted_after_newline (fi ind : string) (glast : list string)
  (gs : list (list string)) :
  forall out : string,
    let o := emitted fi ind (out ++ nl) gs in
    o ++ (if nonempty o then ind else fi) ++ PyStr.join_space glast
    = out ++ render_rest ind (gs ++ [glast]).
Proof.
  induction gs as [|g gs IH]; intros out; cbv zeta; cbn [emitted app].
  - rewrite (nonempty_app_r out nl eq_refl). cbn [render_rest].
    rewrite !str_app_assoc, str_app_nil_r. reflexivity.
  - rewrite (nonempty_app_r out nl eq_refl).
    replace ((out ++ nl) ++ ind ++ PyStr.join_space g ++ nl)
      with ((out ++ nl ++ ind ++ PyStr.join_space g) ++ nl)
      by (rewrite !str_app_assoc; reflexivity).
    specialize (IH (out ++ nl ++ ind ++ PyStr.join_space g)).
    cbv zeta in IH. rewrite IH. cbn [render_rest].
    rewrite !str_app_assoc. reflexivity.
Qed.

Lemma emitted_render (fi ind : string) (glast : list string)
  (gs : list (list string)) :
  let o := emitted fi ind "" gs in
  o ++ (if nonempty o then ind else fi) ++ PyStr.join_space glast
  = render fi ind (gs ++ [glast]).
Proof.
  destruct gs as [|g gs]; cbv zeta; cbn [emitted app render nonempty].
  - cbn [render_rest]. simpl. now rewrite str_app_nil_r.
  - change ("" ++ fi ++ PyStr.join_space g ++ nl)
      with (fi ++ PyStr.join_space g ++ nl).
    replace (fi ++ PyStr.join_space g ++ nl)
      with ((fi ++ PyStr.join_space g) ++ nl)
      by (rewrite !str_app_assoc; reflexivity).
    pose proof (emitted_after_newline fi ind glast gs
                  (fi ++ PyStr.join_space g)) as H.
    cbv zeta in H. rewrite H, !str_app_assoc. reflexivity.
Qed.

(** A wrapper that has emitted nothing and is in no span. *)
Definition fresh_plain (w : wrapper) : Prop :=
  output w = "" /\ current_line w = ""
  /\ inside_codespan w = false
  /\ truthy (current_wikilink_target w) = false
  /\ truthy (current_aspan_href w) = false.

(** Wrapping one plain run of space-separated words: the output is the
    words, in order, distributed over lines. *)
Lemma plain_run_layout (w : wrapper) (ws : list string) :
  fresh_plain w ->
  ws <> [] ->
  Forall (fun x => PyStr.has_space x = false) ws ->
  Forall (fun x => x <> "") ws ->
  escape_delimiter w (PyStr.join_space ws) = PyStr.join_space ws ->
  exists gs : list (list string),
    List.concat gs = ws
    /\ Forall (fun g => g <> []) gs
    /\ Forall (fits (Z.max (first_line_width w) (width w))) gs
    /\ wrap min_not_max_chars_in_a_row exceeds_scaled w
         [Text (PyStr.join_space ws)]
       = Some (render (first_line_indent w) (indent w) gs
               ++ (if first_line_width w =? width w then nl else "")).
Proof.
  intros (Hout & Hline & Hcode & Hwiki & Hhref) Hne Hsp Hnonempty Hesc.
  destruct ws as [|x0 rest]; [contradiction|].
  set (m := Z.max (first_line_width w) (width w)).
  set (w1 := add_line x0 w).
  set (wd := get_currently_applied_width w).
  assert (Hstep : place_words exceeds_scaled false true (w, wd) (x0 :: rest)
                  = place_words exceeds_scaled false false (w1, wd) rest).
  { cbn [place_words]. unfold place_word. rewrite Hline.
    destruct (exceeds _ _ _ _); reflexivity. }
  destruct (place_words_layout (first_line_indent w) (indent w) m rest
              w1 wd [x0])
    as (gs & glast & w' & wd' & Hp & Hc & Hgl & Hgs & Hfits & Hl & Ho);
    try reflexivity; try discriminate.
  { unfold m; simpl; lia. }
  { unfold m; simpl; lia. }
  { unfold wd, get_currently_applied_width, m.
    destruct (nonempty _); lia. }
  { unfold w1. simpl. rewrite Hline. reflexivity. }
  { left; reflexivity. }
  exists (gs ++ [glast])%list. split; [symmetry; exact Hc|].
  split; [apply Forall_app; split; [exact Hgs | constructor; auto]|].
  split; [exact Hfits|].
  unfold wrap, parse, callback, text.
  rewrite Hcode, Hwiki, Hhref. cbn [andb].
  unfold text_plain. rewrite Hesc, Hhref.
  rewrite (split_join_space _ Hne Hsp).
  cbn [bind scale_width andb]. fold wd. rewrite Hstep, Hp. cbn [bind fst].
  pose proof (place_words_config exceeds_scaled false rest false w1 wd
                w' wd' Hp) as Hcfg.
  assert (Hflw : first_line_width w' = first_line_width w)
    by (change (first_line_width (config_of w')
                = first_line_width (config_of w1)); now rewrite Hcfg).
  assert (Hwidth : width w' = width w)
    by (change (width (config_of w') = width (config_of w1));
        now rewrite Hcfg).
  assert (Hfi' : first_line_indent w' = first_line_indent w)
    by (change (first_line_indent (config_of w')
                = first_line_indent (config_of w1)); now rewrite Hcfg).
  assert (Hind' : indent w' = indent w)
    by (change (indent (config_of w') = indent (config_of w1));
        now rewrite Hcfg).
  assert (Hlast : nonempty (PyStr.join_space glast) = true).
  { destruct glast as [|y glast]; [contradiction|].
    apply join_space_nonempty.
    assert (Hin : In y (x0 :: rest)).
    { change (x0 :: rest) with ([x0] ++ rest)%list. rewrite Hc.
      rewrite concat_app. apply in_or_app. right. simpl. left. reflexivity. }
    rewrite Forall_forall in Hnonempty. exact (Hnonempty _ Hin). }
  unfold finish. rewrite Hl, Hlast, Hflw, Hwidth.
  unfold get_currently_applied_indent. rewrite Hfi', Hind', Ho.
  replace (output w1) with "" by (unfold w1; simpl; now rewrite Hout).
  pose proof (emitted_render (first_line_indent w) (indent w) glast gs) as Hr.
  cbv zeta in Hr.
  destruct (first_line_width w =? width w).
  - rewrite Hr. reflexivity.
  - rewrite Hr, str_app_nil_r. reflexivity.
Qed.

End PlainRun.

Section WrapperClaims.

Import Wrapper Layout.

Variable po_escaped_string : string -> string.
Variable min_not_max_chars_in_a_row : ascii -> string -> Z.
Variable exceeds_scaled : Z -> Z -> bool.

(** The run is none of the delimiter strings that [text] replaces by their
    escaped form. *)
Definition not_delimiter (w : wrapper) (t : string) : Prop :=
  t <> italic_start_string w /\ t <> code_start_string w
  /\ t <> code_end_string w /\ t <> italic_end_string w.

Lemma escape_delimiter_id (w : wrapper) (t : string) :
  not_delimiter w t -> escape_delimiter w t = t.
Proof.
  intros (H1 & H2 & H3 & H4). unfold escape_delimiter.
  apply String.eqb_neq in H1, H2, H3, H4.
  now rewrite H1, H2, H3, H4.
Qed.









(** C5 (as amended). A plain run of two or more words separated by single
    spaces, not itself a delimiter string, wrapped by a wrapper that is in no span: the
    output consists of lines (first-line indent or indent, then words joined
    by single spaces, lines separated by a newline) whose words, read in
    order, are exactly the words of the run, so that joining them with
    single spaces gives the run back. *)
Theorem wrapping_preserves_words (w : wrapper) (ws : list string)
  (Hfresh : fresh_plain w)
  (Htwo : (2 <= List.length ws)%nat)
  (Hwords : Forall (fun x => PyStr.has_space x = false) ws)
  (Hnonempty : Forall (fun x => x <> "") ws)
  (Hplain : not_delimiter w (PyStr.join_space ws)) :
  exists gs : list (list string),
    wrap min_not_max_chars_in_a_row exceeds_scaled w
      [Text (PyStr.join_space ws)]
    = Some (render (first_line_indent w) (indent w) gs
            ++ (if first_line_width w =? width w then nl else ""))
    /\ Forall (fun g => g <> []) gs
    /\ List.concat gs = ws
    /\ PyStr.join_space (List.concat gs) = PyStr.join_space ws.
Proof.
  destruct (plain_run_layout min_not_max_chars_in_a_row exceeds_scaled w ws)
    as (gs & Hc & Hgs & _ & Hw); try assumption.
  - destruct ws; [simpl in Htwo; lia | discriminate].
  - now apply escape_delimiter_id.
  - exists gs. repeat split; try assumption. now rewrite Hc.
Qed.

(** C6 (as amended). A run without spaces that is none of the delimiter
    strings, no longer than the width, wrapped with the first-line width
    equal to the width by a wrapper that is in no span: the output is exactly
    one line, the first-line indent followed by the text and the closing
    newline (just the newline when the text is empty). *)
Theorem short_word_one_line (w : wrapper) (t : string)
  (Hfresh : fresh_plain w)
  (Hnospace : PyStr.has_space t = false)
  (Hlen : PyStr.len t <= width w)
  (Hsame : first_line_width w = width w)
  (Hplain : not_delimiter w t) :
  wrap min_not_max_chars_in_a_row exceeds_scaled w [Text t]
  = Some ((if nonempty t then first_line_indent w ++ t else "") ++ nl).
Proof.
  destruct Hfresh as (Hout & Hline & Hcode & Hwiki & Hhref).
  unfold wrap, parse, callback, text.
  rewrite Hcode, Hwiki, Hhref. cbn [andb].
  unfold text_plain. rewrite Hhref, (escape_delimiter_id _ _ Hplain).
  change (PyStr.split_space t) with (PyStr.split_space (PyStr.join_space [t])).
  rewrite split_join_space by (try discriminate; repeat constructor; assumption).
  cbn [bind scale_width andb place_words]. unfold place_word. rewrite Hline.
  destruct (exceeds _ _ _ _);
    cbn [negb orb ends_with_space PyStr.last bind fst snd];
    unfold finish, get_currently_applied_indent; simpl;
    rewrite Hline, !Hout, Hsame, Z.eqb_refl; simpl;
    destruct t; reflexivity.
Qed.



End WrapperClaims.

(** ** Concrete runs *)

Definition backslash_escape (s : string) : string := String backslash s.
Definition one_run (c : ascii) (s : string) : Z := 1.
Definition exceeds_19_20 (n w : Z) : bool := 19 * w <? 20 * n.

(** Width 9 on every line, indents [> ] and [>>], default delimiters. *)
Definition narrow_wrapper : Wrapper.wrapper :=
  Eval vm_compute in
    match Wrapper.init backslash_escape 9 9 ">>" "> " Wrapper.no_kwargs with
    | Some w => w
    | None => blank_wrapper
    end.

Lemma wrapping_preserves_words_example :
  exists gs : list (list string),
    Wrapper.wrap one_run exceeds_19_20 narrow_wrapper
      [Wrapper.Text (PyStr.join_space ["hello"; "world"; "foo"; "bar"])]
    = Some (Layout.render "> " ">>" gs ++ nl)
    /\ Forall (fun g => g <> []) gs
    /\ List.concat gs = ["hello"; "world"; "foo"; "bar"]
    /\ PyStr.join_space (List.concat gs) = "hello world foo bar".
Proof.
  apply (wrapping_preserves_words one_run exceeds_19_20 narrow_wrapper
           ["hello"; "world"; "foo"; "bar"]).
  - repeat split.
  - simpl. lia.
  - repeat constructor.
  - repeat constructor; discriminate.
  - repeat split; discriminate.
Defined.

Lemma short_word_one_line_example :
  Wrapper.wrap one_run exceeds_19_20 narrow_wrapper [Wrapper.Text "hello"]
  = Some ("> hello" ++ nl).
Proof.
  apply (short_word_one_line one_run exceeds_19_20 narrow_wrapper "hello").
  - repeat split.
  - reflexivity.
  - vm_compute. discriminate.
  - reflexivity.
  - repeat split; discriminate.
Defined.

(** [narrow_wrapper] after some text and the opening of a link. *)
Definition narrow_link_events : list Wrapper.event :=
  [Wrapper.Text "see";
   Wrapper.EnterSpan Wrapper.A (Wrapper.Details ["/p"] [] [] [])].

Definition narrow_in_link : Wrapper.wrapper :=
  Eval vm_compute in
    match Wrapper.parse one_run exceeds_19_20 narrow_wrapper
            narrow_link_events with
    | Some w => w
    | None => blank_wrapper
    end.


(** Inside that link a text run is placed without error. *)
Example text_inside_link :
  option_map Wrapper.current_line
    (Wrapper.text one_run exceeds_19_20 narrow_in_link "the link")
  = Some "link"
  /\ option_map Wrapper.output
       (Wrapper.text one_run exceeds_19_20 narrow_in_link "the link")
     = Some ("> see[the" ++ nl).
Proof. split; vm_compute; reflexivity. Qed.

(** The same run evaluated: the long word sits alone on its line. *)
Example long_word_run :
  Wrapper.wrap one_run exceeds_19_20 narrow_wrapper
    [Wrapper.Text "a incomprehensibilities b"]
  = Some ("> a" ++ nl ++ ">>incomprehensibilities" ++ nl ++ ">>b" ++ nl).
Proof. vm_compute. reflexivity. Qed.

Example wrapped_run :
  Wrapper.wrap one_run exceeds_19_20 narrow_wrapper
    [Wrapper.Text "hello world foo bar"]
  = Some ("> hello" ++ nl ++ ">>world foo" ++ nl ++ ">>bar" ++ nl).
Proof. vm_compute. reflexivity. Qed.

(** The scenario of the specification: one entry holding a definition and
    a usage on each side. *)
Example scenario_resolved :
  Resolver.solve_link_reference_targets
    [("[ref]: /page " ++ dq ++ "Title" ++ dq ++ nl ++ nl ++ "See [text][ref].",
      "[ref]: /pagina " ++ dq ++ "Titulo" ++ dq ++ nl ++ nl
      ++ "Ver [texto][ref].")]
  = Some [(Some ("[ref]: /page " ++ dq ++ "Title" ++ dq ++ nl ++ nl
                 ++ "See [text](/page)."),
           Some ("[ref]: /pagina " ++ dq ++ "Titulo" ++ dq ++ nl ++ nl
                 ++ "Ver [texto](/pagina)."))].
Proof. vm_compute. reflexivity. Qed.

(** The example of the docstring of [escape_links_titles]. *)
Example docstring_title :
  escape_links_titles
    ("[a link](href " ++ dq ++ "title with characters to escape " ++ dq ++ dq
     ++ ")")
  = "[a link](href " ++ dq ++ "title with characters to escape "
    ++ String backslash dq ++ dq ++ ")".
Proof. vm_compute. reflexivity. Qed.


(** * Further properties of the resolver *)

Section ResolverMore.

Import Resolver.

(** Once a side has been rewritten it stays a string. *)
Lemma rewrite_fold_some (sd : side) defs orig us :
  forall s, exists s',
    fold_left (rewrite_usage sd defs orig) us (Some s) = Some s'.
Proof.
  induction us as [|u us IH]; intros s; simpl; [eexists; reflexivity|].
  unfold rewrite_usage at 2.
  destruct (find_definition sd (usage_label u) defs); apply IH.
Qed.

(** The new text of a side is [None] exactly when none of the usages of
    that side has a definition: one matching usage is enough for the side to
    be a string. *)
Theorem rewrite_side_none_iff (sd : side)
  (defs : list (definition * definition)) (orig : string) (us : list usage) :
  rewrite_side sd defs orig us = None
  <-> Forall (fun u => find_definition sd (usage_label u) defs = None) us.
Proof.
  unfold rewrite_side. induction us as [|u us IH]; simpl.
  - split; [constructor | reflexivity].
  - unfold rewrite_usage at 2.
    destruct (find_definition sd (usage_label u) defs) as [d|] eqn:E.
    + split.
      * intros H.
        destruct (rewrite_fold_some sd defs orig us
                    (PyStr.replace (replacer u) (replacement u d) orig))
          as [s' Hs]. rewrite Hs in H. discriminate.
      * intros H. inversion H; subst. congruence.
    + rewrite IH. split; intros H.
      * constructor; assumption.
      * inversion H; assumption.
Qed.

Lemma discover_definition_none_iff (msgid msgstr : string) :
  discover_definition msgid msgstr = None <-> msgid = "".
Proof.
  unfold discover_definition. destruct msgid as [|c t]; simpl.
  - split; reflexivity.
  - split; [|discriminate].
    destruct (Ascii.eqb c "["); [|discriminate].
    destruct (parse_definition (String c t)); [|discriminate].
    destruct (parse_definition msgstr); discriminate.
Qed.

Lemma discover_none_iff (translations : list (string * string)) :
  forall defs qs,
    discover translations defs qs = None
    <-> In "" (map fst translations).
Proof.
  induction translations as [|[msgid msgstr] rest IH]; intros defs qs; simpl.
  - split; [discriminate | contradiction].
  - destruct (discover_definition msgid msgstr) as [ds|] eqn:E.
    + rewrite IH. split; [now right|].
      intros [H|H]; [|exact H].
      apply discover_definition_none_iff with (msgstr := msgstr) in H.
      congruence.
    + split; [|reflexivity]. intros _. left.
      now apply discover_definition_none_iff in E.
Qed.

(** [solve_link_reference_targets] raises exactly when the catalog has an
    entry with an empty source text (such as the header entry of a PO
    file): [msgid[0]] is read before anything else is looked at. *)
Theorem solve_raises_iff_empty_msgid (translations : list (string * string)) :
  solve_link_reference_targets translations = None
  <-> In "" (map fst translations).
Proof.
  unfold solve_link_reference_targets. rewrite <- (discover_none_iff _ [] []).
  destruct (discover translations [] []) as [[defs qs]|];
    split; try discriminate; reflexivity.
Qed.

Lemma prefix_head_differs (a c : ascii) (s t : string) :
  a <> c -> prefix (String a s) (String c t) = false.
Proof.
  intros H. cbn [prefix]. destruct (ascii_dec a c); [contradiction|reflexivity].
Qed.

(** No usage pattern matches where the text does not go on with an opening
    bracket. *)
Lemma usage_no_match_at (subject : string) (pos : nat) (rest : string) :
  PyStr.first rest <> Some "["%char ->
  Re.match_at LINK_REFERENCED_LINK_RE subject (pos, rest) = None.
Proof.
  intros H. unfold Re.match_at, LINK_REFERENCED_LINK_RE. cbn [Re.run snd].
  destruct rest as [|c t]; [reflexivity|].
  rewrite prefix_head_differs; [reflexivity|].
  intros <-. apply H. reflexivity.
Qed.

Lemma findall_no_bracket (subject rest : string) :
  PyStr.mem "[" rest = false ->
  forall pos skip,
    Re.findall_from LINK_REFERENCED_LINK_RE subject pos rest skip = [].
Proof.
  induction rest as [|c t IH]; intros Hm pos skip.
  - destruct skip; cbn [Re.findall_from]; [|reflexivity].
    rewrite usage_no_match_at by discriminate. reflexivity.
  - simpl in Hm. apply orb_false_iff in Hm as [Hc Ht].
    destruct skip; cbn [Re.findall_from].
    + rewrite usage_no_match_at; [apply IH; exact Ht|].
      simpl. intros H; injection H as ->. discriminate.
    + apply IH; exact Ht.
Qed.

Lemma find_usages_no_bracket (s : string) :
  PyStr.mem "[" s = false -> find_usages s = [].
Proof.
  intros H. unfold find_usages, Re.findall.
  rewrite findall_no_bracket by exact H. reflexivity.
Qed.

(** An entry is queued only when both of its sides hold a usage. *)
Lemma discover_usages_one_sided (msgid msgstr : string) :
  find_usages msgid = [] \/ find_usages msgstr = [] ->
  discover_usages msgid msgstr = [].
Proof.
  unfold discover_usages. intros [H|H]; rewrite H; [reflexivity|].
  destruct (find_usages msgid); reflexivity.
Qed.

Lemma discover_queues_nothing (translations : list (string * string)) :
  Forall (fun e => fst e <> ""
                   /\ (PyStr.mem "[" (fst e) = false
                       \/ PyStr.mem "[" (snd e) = false)) translations ->
  forall defs qs, exists defs',
    discover translations defs qs = Some (defs', qs).
Proof.
  induction 1 as [|[msgid msgstr] rest [Hne Hb] _ IH]; intros defs qs; simpl.
  - eexists; reflexivity.
  - simpl in Hne, Hb.
    destruct (discover_definition msgid msgstr) as [ds|] eqn:E;
      [|now apply discover_definition_none_iff in E].
    rewrite discover_usages_one_sided, app_nil_r; [apply IH|].
    destruct Hb as [Hb|Hb]; [left|right]; now apply find_usages_no_bracket.
Qed.

(** A catalog in which every entry has a non-empty source text and lacks an
    opening bracket on one of its sides is resolved to the empty mapping:
    entries with usages on one side only are skipped without error. *)
Theorem one_sided_entries_are_skipped (translations : list (string * string))
  (H : Forall (fun e => fst e <> ""
                        /\ (PyStr.mem "[" (fst e) = false
                            \/ PyStr.mem "[" (snd e) = false))
              translations) :
  solve_link_reference_targets translations = Some [].
Proof.
  unfold solve_link_reference_targets.
  destruct (discover_queues_nothing translations H [] []) as [defs' Hd].
  rewrite Hd. reflexivity.
Qed.

End ResolverMore.

Lemma one_sided_entries_are_skipped_example :
  Resolver.solve_link_reference_targets
    [("Hello", "Hola"); ("See [text][ref].", "Ver el texto.")]
  = Some [].
Proof.
  apply one_sided_entries_are_skipped.
  constructor; [split; [discriminate | left; reflexivity]|].
  constructor; [split; [discriminate | right; reflexivity]|].
  constructor.
Defined.

(** ** The result mapping *)

Section Solutions.

Import Resolver.

(** [d.get(k)] on the result dict. *)
Fixpoint dict_get (k : option string) (d : pydict) : option (option string) :=
  match d with
  | [] => None
  | (k', v) :: rest => if key_eqb k k' then Some v else dict_get k rest
  end.

Lemma key_eqb_eq (a b : option string) : key_eqb a b = true <-> a = b.
Proof.
  destruct a as [x|], b as [y|]; simpl; split; intros H;
    try discriminate; try reflexivity.
  - apply String.eqb_eq in H. now subst.
  - injection H as ->. apply String.eqb_refl.
Qed.

Lemma key_eqb_refl (a : option string) : key_eqb a a = true.
Proof. now apply key_eqb_eq. Qed.

Lemma key_eqb_neq (a b : option string) : key_eqb a b = false <-> a <> b.
Proof.
  split.
  - intros H E. apply key_eqb_eq in E. congruence.
  - intros H. destruct (key_eqb a b) eqn:E; [|reflexivity].
    apply key_eqb_eq in E. contradiction.
Qed.

Lemma dict_get_set_same k v d : dict_get k (dict_set k v d) = Some v.
Proof.
  induction d as [|[k' v'] d IH]; simpl.
  - now rewrite key_eqb_refl.
  - destruct (key_eqb k k') eqn:E; simpl.
    + now rewrite key_eqb_refl.
    + now rewrite E.
Qed.

Lemma dict_get_set_other k k' v d :
  k' <> k -> dict_get k' (dict_set k v d) = dict_get k' d.
Proof.
  intros Hne. induction d as [|[k0 v0] d IH]; simpl.
  - apply key_eqb_neq in Hne. now rewrite Hne.
  - destruct (key_eqb k k0) eqn:E; simpl.
    + apply key_eqb_eq in E. subst k0.
      apply key_eqb_neq in Hne. now rewrite Hne.
    + now rewrite IH.
Qed.

Lemma dict_set_keys k v d k' :
  In k' (map fst (dict_set k v d)) <-> k' = k \/ In k' (map fst d).
Proof.
  induction d as [|[k0 v0] d IH]; simpl.
  - split; [intros [H|[]]; now left | intros [H|[]]; now left].
  - destruct (key_eqb k k0) eqn:E; simpl.
    + apply key_eqb_eq in E. subst k0. split.
      * intros [H|H]; [left; now symmetry | right; now right].
      * intros [H|[H|H]]; [left; now symmetry | now left | now right].
    + rewrite IH. split.
      * intros [H|[H|H]]; [right; now left | now left | right; now right].
      * intros [H|[H|H]]; [right; now left | now left | right; now right].
Qed.

Lemma dict_set_nodup k v d :
  NoDup (map fst d) -> NoDup (map fst (dict_set k v d)).
Proof.
  induction d as [|[k0 v0] d IH]; simpl; intros H.
  - constructor; [intros [] | constructor].
  - inversion H as [|? ? Hnotin Hnd]; subst.
    destruct (key_eqb k k0) eqn:E; simpl.
    + apply key_eqb_eq in E. subst k0. constructor; assumption.
    + constructor; [|now apply IH].
      rewrite dict_set_keys. intros [Hk|Hin]; [|contradiction].
      apply key_eqb_neq in E. now subst.
Qed.

Lemma dict_set_length k v d :
  (List.length (dict_set k v d) <= S (List.length d))%nat.
Proof.
  induction d as [|[k0 v0] d IH]; simpl; [lia|].
  destruct (key_eqb k k0); simpl; lia.
Qed.

Lemma solutions_nodup defs qs :
  forall d, NoDup (map fst d) ->
    NoDup (map fst (fold_left (store_solution defs) qs d)).
Proof.
  induction qs as [|q qs IH]; intros d Hd; simpl; [exact Hd|].
  apply IH. unfold store_solution.
  destruct (solve_entry defs q). now apply dict_set_nodup.
Qed.

Lemma solutions_length defs qs :
  forall d,
    (List.length (fold_left (store_solution defs) qs d)
     <= List.length d + List.length qs)%nat.
Proof.
  induction qs as [|q qs IH]; intros d; simpl; [lia|].
  specialize (IH (store_solution defs d q)).
  unfold store_solution in *. destruct (solve_entry defs q) as [k v].
  pose proof (dict_set_length k v d). lia.
Qed.

Lemma discover_usages_length msgid msgstr :
  (List.length (discover_usages msgid msgstr) <= 1)%nat.
Proof.
  unfold discover_usages.
  destruct (find_usages msgid); [simpl; lia|].
  destruct (find_usages msgstr); simpl; lia.
Qed.

Lemma discover_queue_length translations :
  forall defs qs defs' qs',
    discover translations defs qs = Some (defs', qs') ->
    (List.length qs' <= List.length qs + List.length translations)%nat.
Proof.
  induction translations as [|[msgid msgstr] rest IH];
    intros defs qs defs' qs'; simpl.
  - intros H; injection H as <- <-. lia.
  - destruct (discover_definition msgid msgstr); [|discriminate].
    intros H. apply IH in H. rewrite length_app in H.
    pose proof (discover_usages_length msgid msgstr). lia.
Qed.

(** The mapping returned by [solve_link_reference_targets] has pairwise
    distinct keys and never more entries than the catalog. *)
Theorem solutions_keys_distinct_and_bounded
  (translations : list (string * string)) (d : pydict)
  (H : solve_link_reference_targets translations = Some d) :
  NoDup (map fst d)
  /\ (List.length d <= List.length translations)%nat.
Proof.
  unfold solve_link_reference_targets in H.
  destruct (discover translations [] []) as [[defs qs]|] eqn:E;
    [|discriminate].
  injection H as <-. split.
  - apply solutions_nodup. constructor.
  - pose proof (solutions_length defs qs []).
    pose proof (discover_queue_length _ _ _ _ _ E). simpl in *. lia.
Qed.

Lemma solutions_get_kept defs qs k :
  Forall (fun q' => fst (solve_entry defs q') <> k) qs ->
  forall d,
    dict_get k (fold_left (store_solution defs) qs d) = dict_get k d.
Proof.
  induction 1 as [|q qs Hq _ IH]; intros d; simpl; [reflexivity|].
  rewrite IH. unfold store_solution.
  destruct (solve_entry defs q) as [k' v']. simpl in Hq.
  apply dict_get_set_other. congruence.
Qed.

(** Last write wins: the value stored under the new source text of a queued
    entry is its new target text, unless a later queued entry resolves to
    the same new source text. *)
Theorem solutions_last_write_wins
  (translations : list (string * string))
  (defs : list (definition * definition)) (qs1 qs2 : list queued) (q : queued)
  (Hd : discover translations [] [] = Some (defs, (qs1 ++ q :: qs2)%list))
  (Hlater : Forall (fun q' => fst (solve_entry defs q')
                              <> fst (solve_entry defs q)) qs2) :
  exists d,
    solve_link_reference_targets translations = Some d
    /\ dict_get (fst (solve_entry defs q)) d = Some (snd (solve_entry defs q)).
Proof.
  unfold solve_link_reference_targets. rewrite Hd. eexists. split;
    [reflexivity|].
  rewrite fold_left_app. cbn [fold_left].
  rewrite solutions_get_kept by exact Hlater.
  unfold store_solution at 1. destruct (solve_entry defs q) as [k v].
  apply dict_get_set_same.
Qed.

End Solutions.

(** Two entries that resolve to the same new source text. *)
Definition colliding_catalog : list (string * string) :=
  [("[r]: /t", "[r]: /u"); ("[s]: /t", "[s]: /u");
   ("[a][r]", "[uno][r]"); ("[a][s]", "[dos][s]")].

Lemma solutions_keys_distinct_and_bounded_example :
  NoDup (map fst [(Some "[a](/t)", Some "[dos](/u)")])
  /\ (List.length [(Some "[a](/t)", Some "[dos](/u)")]
      <= List.length colliding_catalog)%nat.
Proof.
  apply (solutions_keys_distinct_and_bounded colliding_catalog).
  vm_compute. reflexivity.
Defined.

Lemma solutions_last_write_wins_example :
  exists d,
    Resolver.solve_link_reference_targets colliding_catalog = Some d
    /\ dict_get (Some "[a](/t)") d = Some (Some "[dos](/u)").
Proof.
  apply (solutions_last_write_wins colliding_catalog
           [(Resolver.Definition_ "r" "/t" None,
             Resolver.Definition_ "r" "/u" None);
            (Resolver.Definition_ "s" "/t" None,
             Resolver.Definition_ "s" "/u" None)]
           [Resolver.Queued "[a][r]" "[uno][r]"
              [Resolver.Usage "a" "r"] [Resolver.Usage "uno" "r"]]
           []
           (Resolver.Queued "[a][s]" "[dos][s]"
              [Resolver.Usage "a" "s"] [Resolver.Usage "dos" "s"])).
  - vm_compute. reflexivity.
  - constructor.
Defined.

(** * Further properties of the span wrapper *)

Section OutputGrows.

Import Wrapper.

Variable min_not_max_chars_in_a_row : ascii -> string -> Z.
Variable exceeds_scaled : Z -> Z -> bool.

Lemma last_app_nonempty (a s : string) :
  s <> "" -> PyStr.last (a ++ s) = PyStr.last s.
Proof.
  intros Hs. induction a as [|c a IH]; [reflexivity|].
  change (String c a ++ s) with (String c (a ++ s)). cbn [PyStr.last].
  destruct (a ++ s) eqn:E; [|exact IH].
  destruct a; simpl in E; [contradiction | discriminate].
Qed.

Lemma last_app_nl (a : string) : PyStr.last (a ++ nl) = Some newline.
Proof. rewrite last_app_nonempty; [reflexivity | discriminate]. Qed.

(** [o'] is [o] followed by nothing or by text closed by a newline. *)
Definition grows (o o' : string) : Prop :=
  exists s, o' = o ++ s /\ (s = "" \/ PyStr.last s = Some newline).

Lemma grows_refl o : grows o o.
Proof. exists "". split; [now rewrite str_app_nil_r | now left]. Qed.

Lemma grows_trans o1 o2 o3 : grows o1 o2 -> grows o2 o3 -> grows o1 o3.
Proof.
  intros (s1 & -> & H1) (s2 & -> & H2). exists (s1 ++ s2).
  split; [apply str_app_assoc|].
  destruct H2 as [->|H2]; [now rewrite str_app_nil_r|].
  right. rewrite last_app_nonempty; [exact H2|].
  intros ->. discriminate.
Qed.

Lemma grows_emit w : grows (output w) (output (emit_line w)).
Proof.
  eexists. split; [reflexivity|]. right.
  rewrite <- str_app_assoc. apply last_app_nl.
Qed.

Lemma place_word_grows in_link fw w wd s w1 wd1 :
  place_word exceeds_scaled in_link fw (w, wd) s = Some (w1, wd1) ->
  grows (output w) (output w1).
Proof.
  unfold place_word.
  destruct (exceeds _ _ _ _);
    [destruct (negb fw || ends_with_space (current_line w));
       [destruct (scale_width in_link _); [|discriminate]|]
    |destruct (negb fw)];
    cbn [bind fst snd]; intros H; injection H as <- <-;
    try apply grows_refl.
  apply (grows_emit w).
Qed.

Lemma place_words_grows in_link ws :
  forall fw w wd w1 wd1,
    place_words exceeds_scaled in_link fw (w, wd) ws = Some (w1, wd1) ->
    grows (output w) (output w1).
Proof.
  induction ws as [|s ws IH]; intros fw w wd w1 wd1; cbn [place_words].
  - intros H; injection H as <- <-. apply grows_refl.
  - destruct (place_word exceeds_scaled in_link fw (w, wd) s)
      as [[w2 wd2]|] eqn:E; cbn [bind]; [|discriminate].
    intros H. eapply grows_trans;
      [eapply place_word_grows; exact E | eapply IH; exact H].
Qed.

Lemma text_plain_grows w t w' :
  text_plain exceeds_scaled w t = Some w' -> grows (output w) (output w').
Proof.
  unfold text_plain.
  set (in_link := truthy (current_aspan_href w)).
  set (ws := PyStr.split_space (escape_delimiter w t)).
  set (wd := get_currently_applied_width w).
  intros H.
  assert (Hpre : forall w1,
             (scale_width in_link wd >>= fun wd1 =>
              place_words exceeds_scaled in_link true (w1, wd1) ws >>=
              fun placed => Some (fst placed)) = Some w' ->
             grows (output w1) (output w')).
  { intros w1. destruct (scale_width in_link wd) as [wd1|];
      cbn [bind]; [|discriminate].
    destruct (place_words exceeds_scaled in_link true (w1, wd1) ws)
      as [[w2 wd2]|] eqn:E; cbn [bind fst]; [|discriminate].
    intros H1; injection H1 as <-. eapply place_words_grows; exact E. }
  destruct in_link.
  - destruct (hd_error ws); cbn [bind] in H; [|discriminate].
    destruct (_ >? _); cbn [bind] in H.
    + eapply grows_trans; [|exact (Hpre _ H)].
      exact (grows_emit
               (set_line (PyStr.rstrip " " (PyStr.init (current_line w))) w)).
    + exact (Hpre _ H).
  - cbn [bind] in H. exact (Hpre _ H).
Qed.

Lemma text_grows w t w' :
  text min_not_max_chars_in_a_row exceeds_scaled w t = Some w' ->
  grows (output w) (output w').
Proof.
  unfold text. destruct (inside_codespan w).
  - unfold text_codespan.
    destruct (PyStr.first (code_start_string w)); simpl; [|discriminate].
    intros H; injection H as <-.
    destruct (_ >? _); destruct (_ =? 0); try apply grows_refl;
      exact (grows_emit
               (set_line (PyStr.rstrip " " (PyStr.rstrip "`" (current_line w)))
                  w)).
  - destruct (truthy (current_wikilink_target w)).
    + unfold text_wikilink. intros H; injection H as <-.
      destruct (String.eqb _ _); apply grows_refl.
    + destruct (_ && _ && _).
      * intros H; injection H as <-. apply grows_refl.
      * apply text_plain_grows.
Qed.

Lemma callback_grows w e w' :
  callback min_not_max_chars_in_a_row exceeds_scaled w e = Some w' ->
  grows (output w) (output w').
Proof.
  destruct e as [| |s d|s d|t]; simpl.
  - intros H; injection H as <-; apply grows_refl.
  - intros H; injection H as <-; apply grows_refl.
  - destruct s; simpl; try (intros H; injection H as <-; apply grows_refl).
    + destruct (attr0 (href d)); simpl; [|discriminate].
      intros H; injection H as <-; apply grows_refl.
    + destruct (attr0 (target d)); simpl; [|discriminate].
      intros H; injection H as <-; apply grows_refl.
  - destruct s; simpl; try (intros H; injection H as <-; apply grows_refl).
    + destruct (PyStr.last (current_line w)); simpl; [|discriminate].
      intros H; injection H as <-.
      destruct (Ascii.eqb _ _); [apply grows_refl|].
      destruct (truthy (current_aspan_title w)); apply grows_refl.
    + destruct (attr0 (src d)); simpl; [|discriminate].
      intros H; injection H as <-. destruct (title d); apply grows_refl.
  - apply text_grows.
Qed.

(** Whatever callbacks run, the output accumulator is only appended to, and
    what is appended is closed by a newline: emitted lines are never taken
    back and the output never ends in the middle of a line. *)
Theorem output_only_grows_by_whole_lines
  (w w' : wrapper) (events : list event)
  (H : parse min_not_max_chars_in_a_row exceeds_scaled w events = Some w') :
  exists s : string,
    output w' = output w ++ s
    /\ (s = "" \/ PyStr.last s = Some newline).
Proof.
  change (grows (output w) (output w')).
  revert w w' H. induction events as [|e events IH]; intros w w'; simpl.
  - intros H; injection H as <-. apply grows_refl.
  - destruct (callback _ _ w e) as [w1|] eqn:E; simpl; [|discriminate].
    intros H. eapply grows_trans; [eapply callback_grows; exact E|].
    apply IH; exact H.
Qed.

(** When the first-line width equals the width, the text returned by
    [wrap] ends with a newline, whatever the events were. *)
Theorem wrap_ends_with_newline
  (w : wrapper) (events : list event) (out : string)
  (Hsame : first_line_width w = width w)
  (H : wrap min_not_max_chars_in_a_row exceeds_scaled w events = Some out) :
  PyStr.last out = Some newline.
Proof.
  unfold wrap in H.
  destruct (parse _ _ w events) as [w'|] eqn:E; simpl in H; [|discriminate].
  injection H as <-.
  pose proof (parse_config _ _ _ _ _ E) as Hcfg.
  assert (Hflw : first_line_width w' = first_line_width w)
    by (change (first_line_width (config_of w')
                = first_line_width (config_of w)); now rewrite Hcfg).
  assert (Hwidth : width w' = width w)
    by (change (width (config_of w') = width (config_of w));
        now rewrite Hcfg).
  unfold finish. rewrite Hflw, Hwidth, Hsame, Z.eqb_refl.
  apply last_app_nl.
Qed.

End OutputGrows.

(** The state of [narrow_wrapper] after one plain run. *)
Definition narrow_after_run : Wrapper.wrapper :=
  Eval vm_compute in
    match Wrapper.parse one_run exceeds_19_20 narrow_wrapper
            [Wrapper.Text "hello world foo bar"] with
    | Some w => w
    | None => blank_wrapper
    end.

Lemma output_only_grows_by_whole_lines_example :
  exists s : string,
    Wrapper.output narrow_after_run = Wrapper.output narrow_wrapper ++ s
    /\ (s = "" \/ PyStr.last s = Some newline).
Proof.
  apply (output_only_grows_by_whole_lines one_run exceeds_19_20
           narrow_wrapper narrow_after_run
           [Wrapper.Text "hello world foo bar"]).
  vm_compute. reflexivity.
Defined.

Lemma wrap_ends_with_newline_example :
  PyStr.last ("> hello" ++ nl ++ ">>world foo" ++ nl ++ ">>bar" ++ nl)
  = Some newline.
Proof.
  apply (wrap_ends_with_newline one_run exceeds_19_20 narrow_wrapper
           [Wrapper.Text "hello world foo bar"]).
  - reflexivity.
  - vm_compute. reflexivity.
Defined.

Section SpanComposition.

Import Wrapper Layout.

Variable min_not_max_chars_in_a_row : ascii -> string -> Z.
Variable exceeds_scaled : Z -> Z -> bool.

(** A wikilink span written through the three callbacks: the buffer gets
    the start delimiter, the target (followed by a bar and the display text
    when that differs from the target) and the end delimiter; nothing is
    emitted and the captured target is cleared. *)
Theorem wikilink_written_with_target
  (w : wrapper) (d d' : details) (tg t : string) (others : list string)
  (Hcode : inside_codespan w = false)
  (Htarget : target d = tg :: others)
  (Htg : tg <> "") :
  exists w',
    parse min_not_max_chars_in_a_row exceeds_scaled w
      [EnterSpan WIKILINK d; Text t; LeaveSpan WIKILINK d'] = Some w'
    /\ current_line w'
       = current_line w ++ wikilink_start_string w
         ++ (if String.eqb t tg then tg else tg ++ "|" ++ t)
         ++ wikilink_end_string w
    /\ output w' = output w
    /\ current_wikilink_target w' = None.
Proof.
  cbn [parse callback]. unfold enter_span, attr0. rewrite Htarget.
  cbn [hd_error bind]. unfold text. cbn [inside_codespan set_wikilink].
  change (inside_codespan (add_line (wikilink_start_string w) w))
    with (inside_codespan w).
  rewrite Hcode. cbn [current_wikilink_target truthy].
  destruct tg as [|c0 tg0]; [contradiction|].
  cbn [bind leave_span]. eexists. split; [reflexivity|].
  unfold text_wikilink. cbn [current_wikilink_target set_wikilink get].
  destruct (String.eqb t (String c0 tg0)) eqn:E;
    (split; [|split; reflexivity]).
  - apply String.eqb_eq in E. subst t. simpl. now rewrite !str_app_assoc.
  - simpl. rewrite !str_app_assoc. do 2 f_equal. simpl. f_equal.
    now rewrite str_app_assoc.
Qed.

(** A code span written through the three callbacks.  When the buffer with
    the opening delimiter, the text and one more character fit the applied
    width, everything is appended to the buffer; otherwise the buffer,
    stripped of trailing backticks and spaces, is emitted as a line and the
    new buffer starts with a literal backtick.  The text is fenced by
    [min_not_max_chars_in_a_row - 1] backticks on both sides. *)
Theorem code_span_written
  (w : wrapper) (d d' : details) (t : string) (c : ascii)
  (Hc : PyStr.first (code_start_string w) = Some c) :
  let n := min_not_max_chars_in_a_row c t - 1 in
  let opened := current_line w ++ code_start_string w in
  let over :=
    PyStr.len opened + PyStr.len t + 1 >? get_currently_applied_width w in
  exists w',
    parse min_not_max_chars_in_a_row exceeds_scaled w
      [EnterSpan CODE d; Text t; LeaveSpan CODE d'] = Some w'
    /\ output w'
       = (if over
          then output w ++ get_currently_applied_indent w
               ++ PyStr.rstrip " " (PyStr.rstrip "`" opened) ++ nl
          else output w)
    /\ current_line w'
       = (if over then "`" else opened)
         ++ PyStr.times n backtick ++ t ++ PyStr.times n backtick
         ++ code_end_string w
    /\ inside_codespan w' = false.
Proof.
  cbv zeta. cbn [parse callback enter_span bind].
  unfold text. cbn [inside_codespan add_line set_line set_codespan].
  unfold text_codespan.
  cbn [code_start_string add_line set_line set_codespan current_line].
  rewrite Hc. cbn [bind leave_span].
  change (get_currently_applied_width
            (add_line (code_start_string w) (set_codespan true w)))
    with (get_currently_applied_width w).
  eexists. split; [reflexivity|].
  destruct (_ >? _); destruct (_ =? 0) eqn:En;
    try (apply Z.eqb_eq in En; rewrite En);
    (split; [reflexivity|]); (split; [|reflexivity]); simpl;
    rewrite ?str_app_assoc; reflexivity.
Qed.

Lemma last_none_empty (s : string) : PyStr.last s = None -> s = "".
Proof.
  induction s as [|c s IH]; [reflexivity|]. cbn [PyStr.last].
  destruct s; [discriminate|]. intros H. specialize (IH H). discriminate.
Qed.

(** A link whose text is one word that fits, written through the three
    callbacks with the default start delimiter, when the applied width can
    be converted to a double: the buffer gets the bracketed text followed by
    the href in parentheses (together with the title, passed through
    [escape_links_titles] and put between quotes, when there is one); nothing
    is emitted and the link state is cleared.  The text must differ from the
    href (else the autolink form is used) and must not end with a closing
    angle bracket (which [leave_span] takes for an autolink already
    written). *)
Theorem link_written_inline
  (w : wrapper) (d d' : details) (h t : string) (others : list string)
  (Hcode : inside_codespan w = false)
  (Hwiki : truthy (current_wikilink_target w) = false)
  (Hstart : link_start_string w = "[")
  (Hhref : href d = h :: others)
  (Hh : h <> "")
  (Hdiff : t <> h)
  (Hword : PyStr.has_space t = false)
  (Ht : t <> "")
  (Hplain : escape_delimiter w t = t)
  (Hfits : PyStr.len (current_line w) + 1 + PyStr.len t + 1
           <= get_currently_applied_width w)
  (Hfloat : float_overflows (get_currently_applied_width w) = false)
  (Hlast : PyStr.last t <> Some ">"%char) :
  exists w',
    parse min_not_max_chars_in_a_row exceeds_scaled w
      [EnterSpan A d; Text t; LeaveSpan A d'] = Some w'
    /\ current_line w'
       = current_line w ++ "[" ++ t ++ "](" ++ h
         ++ (match title d with
             | ti :: _ => if nonempty ti then quoted_title ti else ""
             | [] => ""
             end)
         ++ ")"
    /\ output w' = output w
    /\ current_aspan_href w' = None
    /\ current_aspan_title w' = None.
Proof.
  cbn [parse callback]. unfold enter_span, attr0. rewrite Hhref, Hstart.
  cbn [hd_error bind].
  set (w1 := set_aspan (Some h) (hd_error (title d)) (add_line "[" w)).
  assert (Htext : text min_not_max_chars_in_a_row exceeds_scaled w1 t
                  = Some (add_line t w1)).
  { unfold text.
    change (inside_codespan w1) with (inside_codespan w).
    change (current_wikilink_target w1) with (current_wikilink_target w).
    rewrite Hcode, Hwiki.
    change (current_aspan_href w1) with (Some h). cbn [get].
    assert (Hne : String.eqb h t = false)
      by (apply String.eqb_neq; congruence).
    rewrite Hne, andb_false_r. cbn [andb].
    unfold text_plain.
    change (escape_delimiter w1 t) with (escape_delimiter w t).
    rewrite Hplain.
    change (current_aspan_href w1) with (Some h).
    assert (Hth : truthy (Some h) = true) by (destruct h; [contradiction|reflexivity]).
    rewrite Hth.
    change (PyStr.split_space t)
      with (PyStr.split_space (PyStr.join_space [t])).
    rewrite split_join_space
      by (try discriminate; repeat constructor; assumption).
    cbn [hd_error bind].
    change (get_currently_applied_width w1)
      with (get_currently_applied_width w).
    change (current_line w1) with (current_line w ++ "[").
    assert (Hno : (PyStr.len (current_line w ++ "[") + PyStr.len t + 1
                   >? get_currently_applied_width w) = false).
    { rewrite Z.gtb_ltb. apply Z.ltb_ge. rewrite len_app.
      change (PyStr.len "[") with 1. lia. }
    rewrite Hno. unfold scale_width. rewrite Hfloat.
    cbn [andb bind place_words]. unfold place_word.
    change (current_line w1) with (current_line w ++ "[").
    assert (Hsp : ends_with_space (current_line w ++ "[") = false).
    { unfold ends_with_space. rewrite last_app_nonempty by discriminate.
      reflexivity. }
    rewrite Hsp.
    destruct (exceeds _ _ _ _); reflexivity. }
  rewrite Htext. cbn [bind]. unfold leave_span.
  change (current_line (add_line t w1)) with ((current_line w ++ "[") ++ t).
  rewrite last_app_nonempty by exact Ht.
  destruct (PyStr.last t) as [c|] eqn:El;
    [|apply last_none_empty in El; contradiction].
  assert (Hc : Ascii.eqb c ">" = false).
  { apply Ascii.eqb_neq. intros ->. now apply Hlast. }
  cbn [bind]. rewrite Hc.
  change (current_aspan_href (add_line t w1)) with (Some h).
  change (current_aspan_title (add_line t w1)) with (hd_error (title d)).
  eexists. split; [reflexivity|].
  split; [|split; [|split]]; try reflexivity.
  - destruct (title d) as [|ti tis]; cbn [hd_error truthy get nonempty];
      [|destruct ti as [|c1 ti1]]; cbn [truthy get nonempty];
      unfold add_line, quoted_title; cbn [current_line set_line];
      repeat first [rewrite !str_app_assoc | progress simpl]; reflexivity.
  - destruct (title d) as [|ti tis]; cbn [hd_error truthy];
      [reflexivity|]. destruct ti; reflexivity.
Qed.

(** In a wrapped plain run every output line that holds two words or more
    is, without its indent, no longer than the larger of the two widths:
    only a line made of a single word can be over-long. *)
Theorem multiword_lines_fit (w : wrapper) (ws : list string)
  (Hfresh : fresh_plain w)
  (Hne : ws <> [])
  (Hwords : Forall (fun x => PyStr.has_space x = false) ws)
  (Hnonempty : Forall (fun x => x <> "") ws)
  (Hplain : escape_delimiter w (PyStr.join_space ws) = PyStr.join_space ws) :
  exists gs : list (list string),
    wrap min_not_max_chars_in_a_row exceeds_scaled w
      [Text (PyStr.join_space ws)]
    = Some (render (first_line_indent w) (indent w) gs
            ++ (if first_line_width w =? width w then nl else ""))
    /\ List.concat gs = ws
    /\ Forall (fun g => (2 <= List.length g)%nat ->
                        PyStr.len (PyStr.join_space g)
                        <= Z.max (first_line_width w) (width w)) gs.
Proof.
  destruct (plain_run_layout min_not_max_chars_in_a_row exceeds_scaled w ws)
    as (gs & Hc & _ & Hfits & Hw); try assumption.
  exists gs. split; [exact Hw|]. split; [exact Hc|].
  eapply Forall_impl; [|exact Hfits].
  intros g [H1|Hle] H2; [lia | exact Hle].
Qed.

End SpanComposition.

Lemma wikilink_written_with_target_example :
  exists w',
    Wrapper.parse one_run exceeds_19_20 narrow_wrapper
      [Wrapper.EnterSpan Wrapper.WIKILINK (Wrapper.Details [] [] [] ["Foo"]);
       Wrapper.Text "Bar";
       Wrapper.LeaveSpan Wrapper.WIKILINK Wrapper.no_details] = Some w'
    /\ Wrapper.current_line w' = "[[Foo|Bar]]"
    /\ Wrapper.output w' = ""
    /\ Wrapper.current_wikilink_target w' = None.
Proof.
  exact (wikilink_written_with_target one_run exceeds_19_20 narrow_wrapper
           (Wrapper.Details [] [] [] ["Foo"]) Wrapper.no_details
           "Foo" "Bar" [] eq_refl eq_refl ltac:(discriminate)).
Defined.

Lemma code_span_written_example :
  exists w',
    Wrapper.parse one_run exceeds_19_20 narrow_wrapper
      [Wrapper.EnterSpan Wrapper.CODE Wrapper.no_details;
       Wrapper.Text "x = 1";
       Wrapper.LeaveSpan Wrapper.CODE Wrapper.no_details] = Some w'
    /\ Wrapper.output w' = ""
    /\ Wrapper.current_line w' = "`x = 1`"
    /\ Wrapper.inside_codespan w' = false.
Proof.
  exact (code_span_written one_run exceeds_19_20 narrow_wrapper
           Wrapper.no_details Wrapper.no_details "x = 1" "`" eq_refl).
Defined.

Lemma link_written_inline_example :
  exists w',
    Wrapper.parse one_run exceeds_19_20 narrow_wrapper
      [Wrapper.EnterSpan Wrapper.A (Wrapper.Details ["/p"] ["T"] [] []);
       Wrapper.Text "here";
       Wrapper.LeaveSpan Wrapper.A Wrapper.no_details] = Some w'
    /\ Wrapper.current_line w'
       = "[here](/p " ++ dq ++ "T" ++ dq ++ ")"
    /\ Wrapper.output w' = ""
    /\ Wrapper.current_aspan_href w' = None
    /\ Wrapper.current_aspan_title w' = None.
Proof.
  exact (link_written_inline one_run exceeds_19_20 narrow_wrapper
           (Wrapper.Details ["/p"] ["T"] [] []) Wrapper.no_details
           "/p" "here" [] eq_refl eq_refl eq_refl eq_refl
           ltac:(discriminate) ltac:(discriminate) eq_refl
           ltac:(discriminate) eq_refl ltac:(vm_compute; discriminate)
           ltac:(vm_compute; reflexivity) ltac:(discriminate)).
Defined.

Lemma multiword_lines_fit_example :
  exists gs : list (list string),
    Wrapper.wrap one_run exceeds_19_20 narrow_wrapper
      [Wrapper.Text (PyStr.join_space ["hello"; "world"; "foo"; "bar"])]
    = Some (Layout.render "> " ">>" gs ++ nl)
    /\ List.concat gs = ["hello"; "world"; "foo"; "bar"]
    /\ Forall (fun g => (2 <= List.length g)%nat ->
                        PyStr.len (PyStr.join_space g) <= 9) gs.
Proof.
  apply (multiword_lines_fit one_run exceeds_19_20 narrow_wrapper
           ["hello"; "world"; "foo"; "bar"]).
  - repeat split.
  - discriminate.
  - repeat constructor.
  - repeat constructor; discriminate.
  - reflexivity.
Defined.

(** * Further properties of the escaping helper *)

Section WellFormedTitles.

Lemma prefix_length (a b : string) :
  prefix a b = true -> (String.length a <= String.length b)%nat.
Proof.
  revert b. induction a as [|c a IH]; intros b H; simpl; [lia|].
  destruct b as [|d b]; [discriminate|]. cbn [prefix] in H.
  destruct (ascii_dec c d); [|discriminate].
  specialize (IH b H). simpl. lia.
Qed.

Lemma prefix_split (a b : string) :
  prefix a b = true -> b = a ++ PyStr.drop (String.length a) b.
Proof.
  revert b. induction a as [|c a IH]; intros b H; [reflexivity|].
  destruct b as [|d b]; [discriminate|]. cbn [prefix] in H.
  destruct (ascii_dec c d) as [<-|]; [|discriminate].
  simpl. f_equal. apply IH; exact H.
Qed.

Lemma replace_from_same (c : ascii) (old' s : string) :
  forall k : nat,
    (k <= String.length s)%nat ->
    PyStr.replace_from (String c old') (String c old') s k = PyStr.drop k s.
Proof.
  induction s as [|d s IH]; intros k Hk.
  - simpl in Hk. replace k with O by lia. reflexivity.
  - destruct k as [|k]; cbn [PyStr.replace_from PyStr.drop].
    + destruct (prefix (String c old') (String d s)) eqn:E.
      * pose proof (prefix_length _ _ E) as Hlen.
        pose proof (prefix_split _ _ E) as Hsplit.
        rewrite IH by (simpl in *; lia).
        transitivity (String c old'
                      ++ PyStr.drop (String.length (String c old'))
                           (String d s));
          [|symmetry; exact Hsplit].
        simpl. rewrite Nat.sub_0_r. reflexivity.
      * rewrite IH by lia. reflexivity.
    + apply IH. simpl in Hk. lia.
Qed.

(** Replacing a non-empty string by itself changes nothing. *)
Lemma replace_same (old s : string) :
  old <> "" -> PyStr.replace old old s = s.
Proof.
  intros H. destruct old as [|c old']; [contradiction|].
  unfold PyStr.replace. apply (replace_from_same c old' s O). lia.
Qed.

Lemma replace_char_absent (q : ascii) (new s : string) :
  PyStr.mem q s = false -> PyStr.replace (PyStr.ch q) new s = s.
Proof.
  unfold PyStr.replace, PyStr.ch. induction s as [|d s IH]; intros H;
    [reflexivity|].
  simpl in H. apply orb_false_iff in H as [Hd Hs].
  cbn [PyStr.replace_from]. rewrite prefix_head_differs.
  - rewrite (IH Hs). reflexivity.
  - intros ->. rewrite Ascii.eqb_refl in Hd. discriminate.
Qed.

Lemma init_snoc (s : string) (c : ascii) : PyStr.init (s ++ PyStr.ch c) = s.
Proof.
  induction s as [|d s IH]; [reflexivity|].
  change (String d s ++ PyStr.ch c) with (String d (s ++ PyStr.ch c)).
  assert (E : exists a r, s ++ PyStr.ch c = String a r)
    by (destruct s; simpl; do 2 eexists; reflexivity).
  destruct E as (a & r & E). rewrite E.
  change (PyStr.init (String d (String a r)))
    with (String d (PyStr.init (String a r))).
  rewrite <- E, IH. reflexivity.
Qed.

Lemma strip_ends_quoted (inner : string) :
  PyStr.strip_ends (dq ++ inner ++ dq) = inner.
Proof. unfold PyStr.strip_ends. simpl. apply init_snoc. Qed.

(** The payload is a double-quoted title without a quote inside. *)
Definition well_quoted (m : Re.groups) : Prop :=
  exists inner : string,
    group_or_empty 2 m = dq ++ inner ++ dq
    /\ PyStr.mem dquote inner = false.

Lemma escape_one_title_well_quoted (text : string) (m : Re.groups) :
  well_quoted m -> escape_one_title text m = text.
Proof.
  intros (inner & Hm1 & Hq). unfold escape_one_title.
  rewrite Hm1, strip_ends_quoted.
  change dq with (PyStr.ch dquote) at 4.
  rewrite (replace_char_absent dquote _ inner Hq).
  apply replace_same.
  destruct (group_or_empty 1 m); discriminate.
Qed.

(** A text in which every link title is double-quoted and holds no quote
    character is returned unchanged. *)
Theorem escape_links_titles_keeps_clean_titles (text : string)
  (H : Forall well_quoted (link_title_matches text)) :
  escape_links_titles text = text.
Proof.
  unfold escape_links_titles, escape_links_titles_with.
  fold (link_title_matches text).
  induction H as [|m ms Hm _ IH]; simpl; [reflexivity|].
  rewrite escape_one_title_well_quoted by exact Hm. exact IH.
Qed.

End WellFormedTitles.

Lemma escape_links_titles_keeps_clean_titles_example :
  escape_links_titles
    ("See [a](/x " ++ dq ++ "One" ++ dq ++ ") and [b](/y " ++ dq ++ "Two"
     ++ dq ++ ").")
  = "See [a](/x " ++ dq ++ "One" ++ dq ++ ") and [b](/y " ++ dq ++ "Two"
    ++ dq ++ ").".
Proof.
  apply escape_links_titles_keeps_clean_titles.
  match goal with
  | |- Forall _ ?x =>
      let l := eval vm_compute in x in
      replace x with l by (vm_compute; reflexivity)
  end.
  constructor; [exists "One"; split; vm_compute; reflexivity|].
  constructor; [exists "Two"; split; vm_compute; reflexivity|].
  constructor.
Defined.

(** * [parse_link_references] *)

Module LinkReferences.

(** Characters at which [str.splitlines] ends a line (below code point
    256): LF, VT, FF, CR, FS, GS, RS and NEL. *)
Definition is_linebreak (a : ascii) : bool :=
  let n := nat_of_ascii a in
  ((10 <=? n) && (n <=? 13) || (28 <=? n) && (n <=? 30) || (n =? 133))%nat.

Definition carriage_return : ascii := ascii_of_nat 13.

(** [content.splitlines()]: the lines without their terminators; CR LF is
    one terminator, and no empty line follows a final terminator. *)
Fixpoint splitlines (s : string) : list string :=
  match s with
  | EmptyString => []
  | String c t =>
      if is_linebreak c then
        EmptyString ::
          (if Ascii.eqb c carriage_return then
             match t with
             | String d t' =>
                 if Ascii.eqb d newline then splitlines t' else splitlines t
             | EmptyString => splitlines t
             end
           else splitlines t)
      else
        match splitlines t with
        | [] => [PyStr.ch c]
        | l :: ls => String c l :: ls
        end
  end.

(** The characters [str.strip()] removes (below code point 256). *)
Definition whitespace : string :=
  string_of_list_ascii
    (map ascii_of_nat [9; 10; 11; 12; 13; 28; 29; 30; 31; 32; 133; 160]%nat).

(** [line.strip()] *)
Definition strip (s : string) : string :=
  PyStr.rstrip whitespace (PyStr.lstrip whitespace s).

(** The body of the loop over the lines. *)
Definition reference_of_line (line : string) : list Resolver.definition :=
  let linestrip := strip line in
  match PyStr.first linestrip with
  | Some c =>
      if Ascii.eqb c "[" then
        match Resolver.parse_definition linestrip with
        | Some d => [d]
        | None => []
        end
      else []
  | None => []
  end.

(** [parse_link_references(content)] *)
Definition parse_link_references (content : string)
  : list Resolver.definition :=
  flat_map reference_of_line (splitlines content).

Fixpoint has_linebreak (s : string) : bool :=
  match s with
  | EmptyString => false
  | String c t => is_linebreak c || has_linebreak t
  end.

Fixpoint all_in (chars s : string) : bool :=
  match s with
  | EmptyString => true
  | String c t => PyStr.mem c chars && all_in chars t
  end.

End LinkReferences.

Section LinkReferencesFacts.

Import LinkReferences.

Lemma splitlines_single (s : string) :
  has_linebreak s = false -> s <> "" -> splitlines s = [s].
Proof.
  induction s as [|c t IH]; intros Hb Hne; [contradiction|].
  simpl in Hb. apply orb_false_iff in Hb as [Hc Ht].
  cbn [splitlines]. rewrite Hc.
  destruct t as [|d t']; [reflexivity|].
  rewrite IH by (assumption || discriminate). reflexivity.
Qed.

Lemma has_linebreak_app (a b : string) :
  has_linebreak (a ++ b) = has_linebreak a || has_linebreak b.
Proof.
  induction a as [|c a IH]; simpl; [reflexivity|].
  now rewrite IH, orb_assoc.
Qed.

Lemma lstrip_app_all_in (chars ws s : string) :
  all_in chars ws = true ->
  PyStr.lstrip chars (ws ++ s) = PyStr.lstrip chars s.
Proof.
  induction ws as [|c ws IH]; simpl; intros H; [reflexivity|].
  apply andb_true_iff in H as [Hc Hws]. rewrite Hc. now apply IH.
Qed.

Lemma strip_indented (ws s : string) :
  all_in whitespace ws = true -> strip (ws ++ s) = strip s.
Proof. intros H. unfold strip. now rewrite lstrip_app_all_in. Qed.

(** White space before a line does not change what [parse_link_references]
    finds on it: the line is stripped before the first-character test and
    before the definition pattern is tried. *)
Theorem parse_link_references_ignores_indentation (ws line : string)
  (Hws : all_in whitespace ws = true)
  (Hnb : has_linebreak (ws ++ line) = false) :
  parse_link_references (ws ++ line) = parse_link_references line.
Proof.
  rewrite has_linebreak_app in Hnb. apply orb_false_iff in Hnb as [Hb1 Hb2].
  unfold parse_link_references.
  destruct line as [|c line].
  - rewrite str_app_nil_r. destruct ws as [|d ws]; [reflexivity|].
    rewrite splitlines_single by (assumption || discriminate).
    cbn [flat_map splitlines]. rewrite app_nil_r.
    unfold reference_of_line.
    rewrite <- (str_app_nil_r (String d ws)), (strip_indented _ "" Hws).
    reflexivity.
  - rewrite (splitlines_single (String c line))
      by (assumption || discriminate).
    rewrite splitlines_single.
    + cbn [flat_map]. unfold reference_of_line.
      now rewrite strip_indented.
    + rewrite has_linebreak_app, Hb1, Hb2. reflexivity.
    + destruct ws; discriminate.
Qed.

Lemma splitlines_line_then (a b : string) :
  has_linebreak a = false ->
  splitlines (a ++ nl ++ b) = a :: splitlines b.
Proof.
  induction a as [|c a IH]; intros H.
  - reflexivity.
  - simpl in H. apply orb_false_iff in H as [Hc Ha].
    change (String c a ++ nl ++ b) with (String c (a ++ nl ++ b)).
    cbn [splitlines]. rewrite Hc, (IH Ha). reflexivity.
Qed.

(** Lines are parsed one by one: the references of a first line followed
    by a newline and more content are those of the line, then those of the
    rest. *)
Theorem parse_link_references_line_by_line (line rest : string)
  (Hnb : has_linebreak line = false) :
  parse_link_references (line ++ nl ++ rest)
  = (reference_of_line line ++ parse_link_references rest)%list.
Proof.
  unfold parse_link_references.
  rewrite splitlines_line_then by exact Hnb. reflexivity.
Qed.

End LinkReferencesFacts.

Lemma parse_link_references_ignores_indentation_example :
  LinkReferences.parse_link_references ("   " ++ "[a]: /b")
  = [Resolver.Definition_ "a" "/b" None].
Proof.
  rewrite (parse_link_references_ignores_indentation "   " "[a]: /b"
             eq_refl eq_refl).
  vm_compute. reflexivity.
Defined.

Lemma parse_link_references_line_by_line_example :
  LinkReferences.parse_link_references ("[a]: /b" ++ nl ++ "text")
  = [Resolver.Definition_ "a" "/b" None].
Proof.
  rewrite (parse_link_references_line_by_line "[a]: /b" "text" eq_refl).
  vm_compute. reflexivity.
Defined.


(** * Resolution against the earliest definition of the catalog *)

Module Earliest.

Import Resolver.

(** The definition pair an entry adds to [link_references_text_targets],
    if it adds one. *)
Definition retained_pair (e : string * string)
  : option (definition * definition) :=
  match discover_definition (fst e) (snd e) with
  | Some (p :: _) => Some p
  | _ => None
  end.

(** The source-side definition of the earliest entry, in the iteration
    order of the catalog, whose retained pair has the label on its source
    side. *)
Fixpoint earliest_source (lbl : string) (translations : list (string * string))
  : option definition :=
  match translations with
  | [] => None
  | e :: rest =>
      match retained_pair e with
      | Some (src, _) =>
          if String.eqb (label src) lbl then Some src
          else earliest_source lbl rest
      | None => earliest_source lbl rest
      end
  end.

(** The same on the target side: labels and definitions are those of the
    target texts. *)
Fixpoint earliest_target (lbl : string) (translations : list (string * string))
  : option definition :=
  match translations with
  | [] => None
  | e :: rest =>
      match retained_pair e with
      | Some (_, tgt) =>
          if String.eqb (label tgt) lbl then Some tgt
          else earliest_target lbl rest
      | None => earliest_target lbl rest
      end
  end.

(** One usage rewritten with the definition [d] chosen for it. *)
Definition resolve_with (d : option definition) (orig : string)
  (new : option string) (u : usage) : option string :=
  match d with
  | Some d =>
      Some (PyStr.replace (replacer u) (replacement u d)
              (match new with None => orig | Some s => s end))
  | None => new
  end.

(** The new source and target texts of a queued entry when every usage is
    resolved against the earliest definition of the catalog. *)
Definition new_source (translations : list (string * string)) (q : queued)
  : option string :=
  fold_left
    (fun new u =>
       resolve_with (earliest_source (usage_label u) translations)
         (orig_msgid q) new u)
    (msgid_linkr_groups q) None.

Definition new_target (translations : list (string * string)) (q : queued)
  : option string :=
  fold_left
    (fun new u =>
       resolve_with (earliest_target (usage_label u) translations)
         (orig_msgstr q) new u)
    (msgstr_linkr_groups q) None.

(** The pairs of the catalog in iteration order. *)
Definition pairs_in_order (translations : list (string * string))
  : list (definition * definition) :=
  flat_map
    (fun e => match discover_definition (fst e) (snd e) with
              | Some ds => ds
              | None => []
              end)
    translations.

End Earliest.

Section EarliestFacts.

Import Resolver Earliest.

Lemma discover_definition_shape (msgid msgstr : string) :
  discover_definition msgid msgstr = None
  \/ discover_definition msgid msgstr = Some []
  \/ exists p, discover_definition msgid msgstr = Some [p].
Proof.
  unfold discover_definition.
  destruct (PyStr.first msgid); [|now left].
  destruct (Ascii.eqb a "["); [|right; now left].
  destruct (parse_definition msgid); [|right; now left].
  destruct (parse_definition msgstr); right; [right; eexists|left];
    reflexivity.
Qed.

(** Definitions are appended in the order the entries are iterated. *)
Lemma discover_pairs_in_order (translations : list (string * string)) :
  forall defs0 qs0 defs qs,
    discover translations defs0 qs0 = Some (defs, qs) ->
    defs = (defs0 ++ pairs_in_order translations)%list.
Proof.
  induction translations as [|[msgid msgstr] rest IH];
    intros defs0 qs0 defs qs; simpl.
  - intros H; injection H as <- <-. now rewrite app_nil_r.
  - destruct (discover_definition msgid msgstr) as [ds|]; [|discriminate].
    intros H. apply IH in H. rewrite H, <- app_assoc. reflexivity.
Qed.

Lemma find_source_in_order (lbl : string)
  (translations : list (string * string)) :
  find_definition Msgid lbl (pairs_in_order translations)
  = earliest_source lbl translations.
Proof.
  induction translations as [|[msgid msgstr] rest IH]; [reflexivity|].
  unfold pairs_in_order in *. cbn [flat_map earliest_source fst snd].
  unfold retained_pair. cbn [fst snd].
  destruct (discover_definition_shape msgid msgstr) as [E|[E|[[s t] E]]];
    rewrite E; cbn [app find_definition pick fst]; try exact IH.
  destruct (String.eqb (label s) lbl); [reflexivity | exact IH].
Qed.

Lemma find_target_in_order (lbl : string)
  (translations : list (string * string)) :
  find_definition Msgstr lbl (pairs_in_order translations)
  = earliest_target lbl translations.
Proof.
  induction translations as [|[msgid msgstr] rest IH]; [reflexivity|].
  unfold pairs_in_order in *. cbn [flat_map earliest_target fst snd].
  unfold retained_pair. cbn [fst snd].
  destruct (discover_definition_shape msgid msgstr) as [E|[E|[[s t] E]]];
    rewrite E; cbn [app find_definition pick snd]; try exact IH.
  destruct (String.eqb (label t) lbl); [reflexivity | exact IH].
Qed.

Lemma fold_left_pointwise {X Y : Type} (f g : X -> Y -> X) (l : list Y) :
  (forall a b, f a b = g a b) ->
  forall a, fold_left f l a = fold_left g l a.
Proof.
  intros H. induction l as [|y l IH]; intros a; simpl; [reflexivity|].
  rewrite H. apply IH.
Qed.

(** C10. Whenever [solve_link_reference_targets] returns, the definition
    used for a source-side usage is the one of the earliest entry, in the
    iteration order of the catalog, whose retained pair carries the usage's
    label on its source side, and for a target-side usage the one of the
    earliest entry whose pair carries the label on its target side; later
    pairs with the same label are ignored.  The returned mapping is the one
    obtained by storing, for each queued entry in turn, the texts rewritten
    with these earliest definitions. *)
Theorem earliest_definition_resolves_usages
  (translations : list (string * string)) (d : pydict)
  (H : solve_link_reference_targets translations = Some d) :
  exists defs qs,
    discover translations [] [] = Some (defs, qs)
    /\ (forall lbl, find_definition Msgid lbl defs
                    = earliest_source lbl translations)
    /\ (forall lbl, find_definition Msgstr lbl defs
                    = earliest_target lbl translations)
    /\ d = fold_left
             (fun solutions q =>
                dict_set (new_source translations q)
                  (new_target translations q) solutions)
             qs [].
Proof.
  unfold solve_link_reference_targets in H.
  destruct (discover translations [] []) as [[defs qs]|] eqn:E;
    [|discriminate].
  injection H as <-. exists defs, qs.
  pose proof (discover_pairs_in_order _ _ _ _ _ E) as Hdefs.
  cbn [app] in Hdefs. subst defs.
  split; [reflexivity|].
  split; [intros lbl; apply find_source_in_order|].
  split; [intros lbl; apply find_target_in_order|].
  apply fold_left_pointwise. intros sol q.
  unfold store_solution, solve_entry, rewrite_side, new_source, new_target.
  f_equal; apply fold_left_pointwise; intros new u;
    unfold rewrite_usage, resolve_with.
  - now rewrite find_source_in_order.
  - now rewrite find_target_in_order.
Qed.

End EarliestFacts.

(** Two definitions of the label [r] on the source side; on the target
    side the first pair is labelled [s], the second [r]. *)
Definition repeated_label_catalog : list (string * string) :=
  [("[r]: /one", "[s]: /uno");
   ("[r]: /two", "[r]: /dos");
   ("See [t][r].", "Ver [t][r].")].

Lemma earliest_definition_resolves_usages_example :
  exists defs qs,
    Resolver.discover repeated_label_catalog [] [] = Some (defs, qs)
    /\ (forall lbl, Resolver.find_definition Resolver.Msgid lbl defs
                    = Earliest.earliest_source lbl repeated_label_catalog)
    /\ (forall lbl, Resolver.find_definition Resolver.Msgstr lbl defs
                    = Earliest.earliest_target lbl repeated_label_catalog)
    /\ [(Some "See [t](/one).", Some "Ver [t](/dos).")]
       = fold_left
           (fun solutions q =>
              Resolver.dict_set
                (Earliest.new_source repeated_label_catalog q)
                (Earliest.new_target repeated_label_catalog q) solutions)
           qs [].
Proof.
  apply (earliest_definition_resolves_usages repeated_label_catalog).
  vm_compute. reflexivity.
Defined.

(** The earliest definitions of the label [r] in that catalog. *)
Example earliest_of_repeated_label :
  Earliest.earliest_source "r" repeated_label_catalog
  = Some (Resolver.Definition_ "r" "/one" None)
  /\ Earliest.earliest_target "r" repeated_label_catalog
     = Some (Resolver.Definition_ "r" "/dos" None).
Proof. split; vm_compute; reflexivity. Qed.

(** * Where the wrapper departs from the wording of the specification *)

Module WrappedText.

(** The pieces of a text between spaces and newlines. *)
Fixpoint pieces (s : string) : list string :=
  match s with
  | EmptyString => [EmptyString]
  | String c t =>
      if Ascii.eqb c " " || Ascii.eqb c newline then EmptyString :: pieces t
      else match pieces t with
           | w :: ws => String c w :: ws
           | [] => [PyStr.ch c]
           end
  end.

(** The words of a wrapped text whose indents are empty: what is left when
    the text is split at spaces and at the inserted newlines. *)
Definition words (s : string) : list string :=
  filter Wrapper.nonempty (pieces s).

(** The number of lines of a text in which every line is closed by a
    newline. *)
Fixpoint count_lines (s : string) : nat :=
  match s with
  | EmptyString => O
  | String c t => if Ascii.eqb c newline then S (count_lines t)
                  else count_lines t
  end.

End WrappedText.

(** The italic start delimiter is the two words [a b], escaped as [X]. *)
Definition spaced_italic_kwargs : Wrapper.kwargs :=
  Wrapper.Kwargs None None (Some "a b") None None None None None None None
    (Some "X") None None None.

Definition spaced_italic_wrapper : Wrapper.wrapper :=
  Eval vm_compute in
    match Wrapper.init backslash_escape 80 80 "" "" spaced_italic_kwargs with
    | Some w => w
    | None => blank_wrapper
    end.

(** C5 (as stated) fails: with the italic start delimiter [a b], escaped as
    [X], the run made of the words [a] and [b] is in no span and neither
    word is a delimiter string, but the run itself is one: it is replaced
    by [X] before it is split, and the words of the output are not those of
    the run. *)
Lemma delimiter_run_words_lost :
  Wrapper.init backslash_escape 80 80 "" "" spaced_italic_kwargs
  = Some spaced_italic_wrapper
  /\ fresh_plain spaced_italic_wrapper
  /\ Forall (fun x => not_delimiter spaced_italic_wrapper x) ["a"; "b"]
  /\ Wrapper.wrap one_run exceeds_19_20 spaced_italic_wrapper
       [Wrapper.Text (PyStr.join_space ["a"; "b"])]
     = Some ("X" ++ nl)
  /\ WrappedText.words ("X" ++ nl) = ["X"]
  /\ PyStr.join_space (WrappedText.words ("X" ++ nl))
     <> PyStr.join_space ["a"; "b"].
Proof.
  split; [vm_compute; reflexivity|].
  split; [repeat split|].
  split; [repeat constructor; discriminate|].
  split; [vm_compute; reflexivity|].
  split; [vm_compute; reflexivity|].
  vm_compute. discriminate.
Qed.

(** The escaped form of the italic start delimiter holds a space; the
    widths are 1. *)
Definition spaced_escape_kwargs : Wrapper.kwargs :=
  Wrapper.Kwargs None None None None None None None None None None
    (Some "x y") None None None.

Definition spaced_escape_wrapper : Wrapper.wrapper :=
  Eval vm_compute in
    match Wrapper.init backslash_escape 1 1 "" "" spaced_escape_kwargs with
    | Some w => w
    | None => blank_wrapper
    end.

(** C6 (as stated) fails: the run made of the single asterisk has no space,
    is as long as the width and is in no span, but it is the italic start
    delimiter: it is replaced by its escaped form [x y], whose two words are
    put on two lines. *)
Lemma escaped_delimiter_two_lines :
  Wrapper.init backslash_escape 1 1 "" "" spaced_escape_kwargs
  = Some spaced_escape_wrapper
  /\ fresh_plain spaced_escape_wrapper
  /\ PyStr.has_space "*" = false
  /\ PyStr.len "*" <= Wrapper.width spaced_escape_wrapper
  /\ Wrapper.first_line_width spaced_escape_wrapper
     = Wrapper.width spaced_escape_wrapper
  /\ Wrapper.wrap one_run exceeds_19_20 spaced_escape_wrapper
       [Wrapper.Text "*"]
     = Some ("x" ++ nl ++ "y" ++ nl)
  /\ WrappedText.count_lines ("x" ++ nl ++ "y" ++ nl) = 2%nat
  /\ "x" ++ nl ++ "y" ++ nl
     <> Wrapper.first_line_indent spaced_escape_wrapper ++ "*" ++ nl.
Proof.
  split; [vm_compute; reflexivity|].
  split; [repeat split|].
  split; [reflexivity|].
  split; [vm_compute; discriminate|].
  split; [reflexivity|].
  split; [vm_compute; reflexivity|].
  split; [vm_compute; reflexivity|].
  vm_compute. discriminate.
Qed.





(** A link without title followed by a parenthesis: the pattern of
    [escape_links_titles] matches across them and the text is rewritten. *)
Example untitled_link_rewritten :
  escape_links_titles "[a](b) and (c)"
  = "[a](b) " ++ dq ++ "nd (" ++ dq ++ ")".
Proof. vm_compute. reflexivity. Qed.
